(** * dpkt.ip6: Internet Protocol, version 6

    A shallow embedding of [dpkt/ip6.py]: the IPv6 fixed header and its
    bit-field accessors, the six extension headers, the TLV option scan of
    the Options headers, the extension-header chain walk of [IP6.unpack],
    and [IP6.__bytes__] with its upper-layer checksum fix-up.

    Python integers are unbounded, so they are [Z]; byte strings are lists
    of [Byte.byte]; the [extension_hdrs] dict is a [gmap Z _]; an exception
    is an explicit outcome of every fallible operation. *)

From Stdlib Require Import ZArith List Lia Bool.
From Stdlib.Strings Require Import Byte.
From stdpp Require Import base option list gmap.
Import ListNotations.
Local Open Scope Z_scope.

(** ** Byte strings *)

Abbreviation bytes := (list byte).

#[global] Instance byte_eq_dec : EqDecision byte := Byte.byte_eq_dec.

(** [compat_ord]: the integer value of one byte. *)
Definition compat_ord (b : byte) : Z := Z.of_N (Byte.to_N b).

(** The byte whose value is [z mod 256]. *)
Definition chr (z : Z) : byte :=
  match Byte.of_N (Z.to_N (z mod 256)) with
  | Some b => b
  | None => x00
  end.

Definition blen (b : bytes) : Z := Z.of_nat (length b).

(** Python's slice index normalisation: a negative index counts from the
    end, and every index is clamped to [0, len]. *)
Definition norm_index (n i : Z) : Z :=
  if i <? 0 then Z.max 0 (n + i) else Z.min i n.

(** [b[lo:hi]]; [None] is an omitted bound. *)
Definition slice (b : bytes) (lo hi : option Z) : bytes :=
  let n := blen b in
  let a := match lo with Some i => norm_index n i | None => 0 end in
  let z := match hi with Some i => norm_index n i | None => n end in
  take (Z.to_nat (z - a)) (drop (Z.to_nat a) b).

(** [b[i]] on a byte string: [None] stands for Python's IndexError,
    negative indices count from the end. *)
Definition getitem (b : bytes) (i : Z) : option byte :=
  if i <? 0
  then (if blen b + i <? 0 then None else b !! Z.to_nat (blen b + i))
  else b !! Z.to_nat i.

(** ** Exceptions and outcomes *)

Inductive exn : Type :=
| NeedData        (* dpkt.NeedData, a subclass of dpkt.UnpackError *)
| UnpackError
| PackError
| StructError     (* struct.error *)
| IndexError
| KeyError
| AttributeError.

(** [except dpkt.UnpackError] also catches its subclass [NeedData]. *)
Definition is_UnpackError (e : exn) : bool :=
  match e with
  | NeedData | UnpackError => true
  | _ => false
  end.

(** What running a piece of the program gives: a value, a raised
    exception, or [Loops] when a loop was cut off before its condition
    became false. *)
Inductive outcome (A : Type) : Type :=
| Ok (a : A)
| Raise (e : exn)
| Loops.
Arguments Ok {A} a.
Arguments Raise {A} e.
Arguments Loops {A}.

Definition bind {A B} (m : outcome A) (k : A -> outcome B) : outcome B :=
  match m with
  | Ok a => k a
  | Raise e => Raise e
  | Loops => Loops
  end.

Notation "'let*' x ':=' m 'in' k" := (bind m (fun x => k))
  (at level 10, x pattern, m at level 100, k at level 200,
   format "'[v' 'let*'  x  ':='  m  'in' '/' k ']'").

Definition terminates {A} (m : outcome A) : Prop := m <> Loops.

(** ** struct: big-endian fixed-width fields *)

Module struct.

(** Modelled from the spec: the fixed-width field packing and unpacking of
    the packet base abstraction ([struct.pack] / [struct.unpack] with the
    big-endian formats 'B', 'H', 'I' and '16s'), which lives in dpkt.py
    and the Python runtime. *)
Definition unpack_B (b : bytes) : Z :=
  match b with [a] => compat_ord a | _ => 0 end.

Definition unpack_H (b : bytes) : Z :=
  match b with
  | [a; c] => Z.lor (Z.shiftl (compat_ord a) 8) (compat_ord c)
  | _ => 0
  end.

Definition unpack_I (b : bytes) : Z :=
  match b with
  | [a; c; d; e] =>
      Z.lor (Z.shiftl (compat_ord a) 24)
        (Z.lor (Z.shiftl (compat_ord c) 16)
           (Z.lor (Z.shiftl (compat_ord d) 8) (compat_ord e)))
  | _ => 0
  end.

(** Packing rejects a value that does not fit the field. *)
Definition fits (w : Z) (v : Z) : bool := (0 <=? v) && (v <? 2 ^ w).

Definition pack_B (v : Z) : outcome bytes :=
  if fits 8 v then Ok [chr v] else Raise StructError.

Definition pack_H (v : Z) : outcome bytes :=
  if fits 16 v then Ok [chr (Z.shiftr v 8); chr v] else Raise StructError.

Definition pack_I (v : Z) : outcome bytes :=
  if fits 32 v
  then Ok [chr (Z.shiftr v 24); chr (Z.shiftr v 16); chr (Z.shiftr v 8); chr v]
  else Raise StructError.

(** '16s': truncated or zero-padded to exactly 16 bytes. *)
Definition pack_16s (b : bytes) : bytes := take 16 (b ++ replicate 16 x00).

End struct.

(** ** The packet base class *)

Module Packet.

(** Modelled from the spec: [dpkt.Packet.unpack] of the packet base
    abstraction in dpkt.py.  It unpacks the [hdr_len] header bytes
    [buf[:hdr_len]] and leaves [buf[hdr_len:]] as [data]; on a buffer
    shorter than the header the constructor raises [NeedData].  The
    result is the pair of the header bytes and [data]. *)
Definition unpack (hdr_len : nat) (buf : bytes) : outcome (bytes * bytes) :=
  if blen buf <? Z.of_nat hdr_len
  then Raise NeedData
  else Ok (take hdr_len buf, drop hdr_len buf).

(** The field of [n] bytes at offset [off] of the header bytes. *)
Definition field (off n : nat) (hdr : bytes) : bytes := take n (drop off hdr).

(** Modelled from the spec: [dpkt.Packet.pack_hdr] packs the header
    fields with [struct.pack]; a field that does not fit its format is
    reported as [PackError]. *)
Definition pack_hdr (packed : outcome bytes) : outcome bytes :=
  match packed with
  | Raise StructError => Raise PackError
  | r => r
  end.

(** Modelled from the spec: [dpkt.Packet.__bytes__], the packed header
    followed by the bytes of [data] (byte-length concatenation on
    encode). *)
Definition to_bytes (pack_hdr : outcome bytes) (data : bytes) : outcome bytes :=
  let* h := pack_hdr in Ok (h ++ data).

End Packet.

(** Modelled from the spec: the protocol numbers of ip.py that ip6.py
    refers to; the six recognised extension ids are {0, 43, 44, 50, 51, 60}. *)
Module ip.
Definition IP_PROTO_HOPOPTS : Z := 0.
Definition IP_PROTO_ROUTING : Z := 43.
Definition IP_PROTO_FRAGMENT : Z := 44.
Definition IP_PROTO_ESP : Z := 50.
Definition IP_PROTO_AH : Z := 51.
Definition IP_PROTO_DSTOPTS : Z := 60.
End ip.

(** ** Options headers (Hop-by-Hop and Destination) *)

Module Opt.
(** One entry of [options]: the dict [{'type', 'opt_length', 'data'}]. *)
Record t : Type := mk { type : Z; opt_length : Z; data : bytes }.
End Opt.

Module IP6OptsHeader.

Record t : Type := mk {
  nxt : Z;              (* next extension header protocol *)
  len : Z;              (* option data length in 8 octet units *)
  data : bytes;
  length : Z;
  options : list Opt.t
}.

Definition __hdr_len__ : nat := 2.

(** The [while index < self.length - 2] loop of [unpack]; [fuel] bounds
    the number of iterations that are run. *)
Fixpoint scan (fuel : nat) (data : bytes) (length : Z) (index : Z)
    (options : list Opt.t) : outcome (list Opt.t) :=
  if index <? length - 2 then
    match fuel with
    | O => Loops
    | S fuel =>
        match getitem data index with
        | None => Raise IndexError
        | Some t =>
            let opt_type := compat_ord t in
            if opt_type =? 0 then        (* PAD1 option *)
              scan fuel data length (index + 1) options
            else
              match getitem data (index + 1) with
              | None => Raise IndexError
              | Some l =>
                  let opt_length := compat_ord l in
                  if opt_type =? 1 then  (* PADN option *)
                    scan fuel data length (index + (opt_length + 2)) options
                  else
                    scan fuel data length (index + (opt_length + 2))
                      (options ++
                         [Opt.mk opt_type opt_length
                            (slice data (Some (index + 2))
                               (Some (index + 2 + opt_length)))])
              end
        end
    end
  else Ok options.

Definition unpack (buf : bytes) : outcome t :=
  let* (hdr, data) := Packet.unpack __hdr_len__ buf in
  let nxt := struct.unpack_B (Packet.field 0 1 hdr) in
  let len := struct.unpack_B (Packet.field 1 1 hdr) in
  let length := (len + 1) * 8 in
  let* options := scan (Z.to_nat (length - 2)) data length 0 [] in
  Ok (mk nxt len data length options).

Definition pack_hdr (self : t) : outcome bytes :=
  Packet.pack_hdr (
    let* a := struct.pack_B (nxt self) in
    let* b := struct.pack_B (len self) in
    Ok (a ++ b)).

Definition to_bytes (self : t) : outcome bytes :=
  Packet.to_bytes (pack_hdr self) (data self).

End IP6OptsHeader.

(** ** Routing header *)

Module IP6RoutingHeader.

Record t : Type := mk {
  nxt : Z;              (* next extension header protocol *)
  len : Z;              (* extension data length in 8 octet units *)
  type : Z;             (* routing type *)
  segs_left : Z;        (* remaining segments in route *)
  rsvd_sl_bits : Z;     (* reserved (1 byte), strict/loose bitmap *)
  data : bytes;
  addresses : list bytes;
  length : Z
}.

Definition __hdr_len__ : nat := 8.

Definition sl_bits (self : t) : Z := Z.land (rsvd_sl_bits self) 0xffffff.

Definition set_sl_bits (v : Z) (self : t) : t :=
  mk (nxt self) (len self) (type self) (segs_left self)
     (Z.lor (Z.land (rsvd_sl_bits self) (Z.lnot 0xfffff)) (Z.land v 0xfffff))
     (data self) (addresses self) (length self).

Definition unpack (buf : bytes) : outcome t :=
  let hdr_size := 8 in
  let addr_size := 16 in
  let* (hdr, _) := Packet.unpack __hdr_len__ buf in
  let nxt := struct.unpack_B (Packet.field 0 1 hdr) in
  let len := struct.unpack_B (Packet.field 1 1 hdr) in
  let type := struct.unpack_B (Packet.field 2 1 hdr) in
  let segs_left := struct.unpack_B (Packet.field 3 1 hdr) in
  let rsvd_sl_bits := struct.unpack_I (Packet.field 4 4 hdr) in
  let num_addresses := len `div` 2 in
  let buf := slice buf (Some hdr_size) (Some (hdr_size + num_addresses * addr_size)) in
  let addresses :=
    (fun i => slice buf (Some (i * addr_size)) (Some (i * addr_size + addr_size)))
      <$> seqZ 0 num_addresses in
  Ok (mk nxt len type segs_left rsvd_sl_bits buf addresses (len * 8 + 8)).

Definition pack_hdr (self : t) : outcome bytes :=
  Packet.pack_hdr (
    let* a := struct.pack_B (nxt self) in
    let* b := struct.pack_B (len self) in
    let* c := struct.pack_B (type self) in
    let* d := struct.pack_B (segs_left self) in
    let* e := struct.pack_I (rsvd_sl_bits self) in
    Ok (a ++ b ++ c ++ d ++ e)).

Definition to_bytes (self : t) : outcome bytes :=
  Packet.to_bytes (pack_hdr self) (data self).

End IP6RoutingHeader.

(** ** Fragment header *)

Module IP6FragmentHeader.

Record t : Type := mk {
  nxt : Z;              (* next extension header protocol *)
  resv : Z;             (* reserved, set to 0 *)
  frag_off_resv_m : Z;  (* frag offset (13 bits), reserved zero (2 bits), More frags flag *)
  id : Z;               (* fragments id *)
  data : bytes;
  length : Z
}.

Definition __hdr_len__ : nat := 8.

Definition unpack (buf : bytes) : outcome t :=
  let* (hdr, _) := Packet.unpack __hdr_len__ buf in
  let nxt := struct.unpack_B (Packet.field 0 1 hdr) in
  let resv := struct.unpack_B (Packet.field 1 1 hdr) in
  let frag_off_resv_m := struct.unpack_H (Packet.field 2 2 hdr) in
  let id := struct.unpack_I (Packet.field 4 4 hdr) in
  Ok (mk nxt resv frag_off_resv_m id [] (Z.of_nat __hdr_len__)).

Definition set_frag_off_resv_m (w : Z) (self : t) : t :=
  mk (nxt self) (resv self) w (id self) (data self) (length self).

Definition frag_off (self : t) : Z := Z.shiftr (frag_off_resv_m self) 3.

Definition set_frag_off (v : Z) (self : t) : t :=
  set_frag_off_resv_m
    (Z.lor (Z.land (frag_off_resv_m self) (Z.lnot 0xfff8)) (Z.shiftl v 3)) self.

Definition m_flag (self : t) : Z := Z.land (frag_off_resv_m self) 1.

Definition set_m_flag (v : Z) (self : t) : t :=
  set_frag_off_resv_m
    (Z.lor (Z.land (frag_off_resv_m self) (Z.lnot 0xfffe)) v) self.

Definition pack_hdr (self : t) : outcome bytes :=
  Packet.pack_hdr (
    let* a := struct.pack_B (nxt self) in
    let* b := struct.pack_B (resv self) in
    let* c := struct.pack_H (frag_off_resv_m self) in
    let* d := struct.pack_I (id self) in
    Ok (a ++ b ++ c ++ d)).

Definition to_bytes (self : t) : outcome bytes :=
  Packet.to_bytes (pack_hdr self) (data self).

End IP6FragmentHeader.

(** ** Authentication header *)

Module IP6AHHeader.

Record t : Type := mk {
  nxt : Z;              (* next extension header protocol *)
  len : Z;              (* length of header in 4 octet units (ignoring first 2 units) *)
  resv : Z;             (* reserved, 2 bytes of 0 *)
  spi : Z;              (* SPI security parameter index *)
  seq : Z;              (* sequence no. *)
  data : bytes;
  length : Z;
  auth_data : bytes
}.

Definition __hdr_len__ : nat := 12.

Definition unpack (buf : bytes) : outcome t :=
  let* (hdr, data) := Packet.unpack __hdr_len__ buf in
  let nxt := struct.unpack_B (Packet.field 0 1 hdr) in
  let len := struct.unpack_B (Packet.field 1 1 hdr) in
  let resv := struct.unpack_H (Packet.field 2 2 hdr) in
  let spi := struct.unpack_I (Packet.field 4 4 hdr) in
  let seq := struct.unpack_I (Packet.field 8 4 hdr) in
  Ok (mk nxt len resv spi seq data ((len + 2) * 4)
        (slice data None (Some ((len - 1) * 4)))).

Definition pack_hdr (self : t) : outcome bytes :=
  Packet.pack_hdr (
    let* a := struct.pack_B (nxt self) in
    let* b := struct.pack_B (len self) in
    let* c := struct.pack_H (resv self) in
    let* d := struct.pack_I (spi self) in
    let* e := struct.pack_I (seq self) in
    Ok (a ++ b ++ c ++ d ++ e)).

Definition to_bytes (self : t) : outcome bytes :=
  Packet.to_bytes (pack_hdr self) (data self).

End IP6AHHeader.

(** ** Encapsulating Security Payload header *)

Module IP6ESPHeader.

Record t : Type := mk {
  spi : Z;
  seq : Z;
  data : bytes;
  length : Z
}.

Definition __hdr_len__ : nat := 8.

Definition unpack (buf : bytes) : outcome t :=
  let* (hdr, data) := Packet.unpack __hdr_len__ buf in
  let spi := struct.unpack_I (Packet.field 0 4 hdr) in
  let seq := struct.unpack_I (Packet.field 4 4 hdr) in
  Ok (mk spi seq data (Z.of_nat __hdr_len__ + blen data)).

Definition pack_hdr (self : t) : outcome bytes :=
  Packet.pack_hdr (
    let* a := struct.pack_I (spi self) in
    let* b := struct.pack_I (seq self) in
    Ok (a ++ b)).

Definition to_bytes (self : t) : outcome bytes :=
  Packet.to_bytes (pack_hdr self) (data self).

End IP6ESPHeader.

(** ** The extension headers as one tagged union *)

Inductive ext_hdr : Type :=
| HopOpts (h : IP6OptsHeader.t)
| Routing (h : IP6RoutingHeader.t)
| Fragment (h : IP6FragmentHeader.t)
| AH (h : IP6AHHeader.t)
| ESP (h : IP6ESPHeader.t)
| DstOpts (h : IP6OptsHeader.t).

(** [ext.length] *)
Definition ext_length (ext : ext_hdr) : Z :=
  match ext with
  | HopOpts h | DstOpts h => IP6OptsHeader.length h
  | Routing h => IP6RoutingHeader.length h
  | Fragment h => IP6FragmentHeader.length h
  | AH h => IP6AHHeader.length h
  | ESP h => IP6ESPHeader.length h
  end.

(** [getattr(ext, 'nxt', None)]: the ESP header has no [nxt] field. *)
Definition ext_nxt (ext : ext_hdr) : option Z :=
  match ext with
  | HopOpts h | DstOpts h => Some (IP6OptsHeader.nxt h)
  | Routing h => Some (IP6RoutingHeader.nxt h)
  | Fragment h => Some (IP6FragmentHeader.nxt h)
  | AH h => Some (IP6AHHeader.nxt h)
  | ESP h => None
  end.

(** [bytes(ext)] *)
Definition ext_bytes (ext : ext_hdr) : outcome bytes :=
  match ext with
  | HopOpts h | DstOpts h => IP6OptsHeader.to_bytes h
  | Routing h => IP6RoutingHeader.to_bytes h
  | Fragment h => IP6FragmentHeader.to_bytes h
  | AH h => IP6AHHeader.to_bytes h
  | ESP h => IP6ESPHeader.to_bytes h
  end.

Definition ext_hdrs : list Z :=
  [ip.IP_PROTO_HOPOPTS; ip.IP_PROTO_ROUTING; ip.IP_PROTO_FRAGMENT;
   ip.IP_PROTO_AH; ip.IP_PROTO_ESP; ip.IP_PROTO_DSTOPTS].

Definition ext_hdrs_cls : gmap Z (bytes -> outcome ext_hdr) :=
  {[ ip.IP_PROTO_HOPOPTS := fun buf => let* h := IP6OptsHeader.unpack buf in Ok (HopOpts h);
     ip.IP_PROTO_ROUTING := fun buf => let* h := IP6RoutingHeader.unpack buf in Ok (Routing h);
     ip.IP_PROTO_FRAGMENT := fun buf => let* h := IP6FragmentHeader.unpack buf in Ok (Fragment h);
     ip.IP_PROTO_ESP := fun buf => let* h := IP6ESPHeader.unpack buf in Ok (ESP h);
     ip.IP_PROTO_AH := fun buf => let* h := IP6AHHeader.unpack buf in Ok (AH h);
     ip.IP_PROTO_DSTOPTS := fun buf => let* h := IP6OptsHeader.unpack buf in Ok (DstOpts h) ]}.

(** ** Internet checksum *)

Module dpkt.

(** The 16-bit big-endian words of a byte string; a trailing odd byte is
    the high byte of a last word. *)
Fixpoint words16 (buf : bytes) : list Z :=
  match buf with
  | a :: c :: rest => Z.lor (Z.shiftl (compat_ord a) 8) (compat_ord c) :: words16 rest
  | [a] => [Z.shiftl (compat_ord a) 8]
  | [] => []
  end.

(** Modelled from the spec: [dpkt.in_cksum_add] of dpkt.py, the running
    sum of the 16-bit words of [buf] (the standard one's-complement sum of
    16-bit words, carries not yet folded). *)
Definition in_cksum_add (s : Z) (buf : bytes) : Z :=
  s + foldr Z.add 0 (words16 buf).

(** Modelled from the spec: [dpkt.in_cksum_done] of dpkt.py, which folds
    the carries back into the low 16 bits (wraparound carry) and
    complements the result. *)
Definition in_cksum_done (s : Z) : Z :=
  let s := Z.shiftr s 16 + Z.land s 0xffff in
  let s := s + Z.shiftr s 16 in
  Z.land (Z.lnot s) 0xffff.

End dpkt.

(** ** Upper-layer payloads *)

(** What [IP6] needs of an object built by a decoder of the protocol
    registry: its bytes, and its [sum] attribute, which a class may lack
    ([None] stands for AttributeError). *)
Class Payload (U : Type) : Type := {
  pl_bytes : U -> bytes;
  pl_sum : U -> option Z;
  pl_set_sum : Z -> U -> option U
}.

(** [self.data]: a decoded upper-layer object, or the raw bytes. *)
Inductive payload (U : Type) : Type :=
| Raw (b : bytes)
| Obj (o : U).
Arguments Raw {U} b.
Arguments Obj {U} o.

(** ** The extension-header chain walk of [IP6.unpack] *)

(** The [while next_ext_hdr in ext_hdrs] loop; [fuel] bounds the number of
    iterations that are run. *)
Fixpoint walk (fuel : nat) (extension_hdrs : gmap Z ext_hdr) (buf : bytes)
    (next_ext_hdr : option Z) : outcome (gmap Z ext_hdr * bytes * option Z) :=
  match next_ext_hdr with
  | Some k =>
      if bool_decide (k ∈ ext_hdrs) then
        match fuel with
        | O => Loops
        | S fuel =>
            match ext_hdrs_cls !! k with
            | None => Raise KeyError
            | Some cls =>
                let* ext := cls buf in
                walk fuel (<[k := ext]> extension_hdrs)
                  (slice buf (Some (ext_length ext)) None) (ext_nxt ext)
            end
        end
      else Ok (extension_hdrs, buf, next_ext_hdr)
  | None => Ok (extension_hdrs, buf, next_ext_hdr)
  end.

(** The headers that [walk] decodes, in the order it meets them on the
    wire ([extension_hdrs] keeps them by protocol id only). *)
Fixpoint chain (fuel : nat) (buf : bytes) (next_ext_hdr : option Z)
    : list (Z * ext_hdr) :=
  match next_ext_hdr with
  | Some k =>
      if bool_decide (k ∈ ext_hdrs) then
        match fuel with
        | O => []
        | S fuel =>
            match ext_hdrs_cls !! k with
            | None => []
            | Some cls =>
                match cls buf with
                | Ok ext =>
                    (k, ext) ::
                    chain fuel (slice buf (Some (ext_length ext)) None) (ext_nxt ext)
                | _ => []
                end
            end
        end
      else []
  | None => []
  end.

(** [__hdr_len__] of the class registered for each extension id: the
    fixed portion of the header. *)
Definition ext_hdrs_hdr_len : gmap Z nat :=
  {[ ip.IP_PROTO_HOPOPTS := IP6OptsHeader.__hdr_len__;
     ip.IP_PROTO_ROUTING := IP6RoutingHeader.__hdr_len__;
     ip.IP_PROTO_FRAGMENT := IP6FragmentHeader.__hdr_len__;
     ip.IP_PROTO_ESP := IP6ESPHeader.__hdr_len__;
     ip.IP_PROTO_AH := IP6AHHeader.__hdr_len__;
     ip.IP_PROTO_DSTOPTS := IP6OptsHeader.__hdr_len__ ]}.


(** The bytes of the headers of a chain, one after the other. *)
Fixpoint chain_bytes (c : list (Z * ext_hdr)) : outcome bytes :=
  match c with
  | [] => Ok []
  | (_, ext) :: c =>
      let* b := ext_bytes ext in
      let* r := chain_bytes c in
      Ok (b ++ r)
  end.

(** The sum of the [length] attributes of the headers of a chain. *)
Definition chain_length (c : list (Z * ext_hdr)) : Z :=
  foldr (fun ke acc => ext_length ke.2 + acc) 0 c.

(** ** The IPv6 packet *)

Module IP6.
Section IP6.

Context {U : Type} `{Payload U}.

(** [_protosw]: the protocol registry shared with IP. *)
Variable _protosw : gmap Z (bytes -> outcome U).

Record t : Type := mk {
  _v_fc_flow : Z;
  plen : Z;             (* payload length (not including header) *)
  nxt : Z;              (* next header protocol *)
  hlim : Z;             (* hop limit *)
  src : bytes;
  dst : bytes;
  data : payload U;
  extension_hdrs : gmap Z ext_hdr;
  p : option Z          (* the payload protocol id; [None] while unset *)
}.

Definition __hdr_len__ : nat := 40.

Definition set__v_fc_flow (w : Z) (self : t) : t :=
  mk w (plen self) (nxt self) (hlim self) (src self) (dst self)
     (data self) (extension_hdrs self) (p self).

Definition set_data (d : payload U) (self : t) : t :=
  mk (_v_fc_flow self) (plen self) (nxt self) (hlim self) (src self) (dst self)
     d (extension_hdrs self) (p self).

Definition v (self : t) : Z := Z.shiftr (_v_fc_flow self) 28.

Definition set_v (v : Z) (self : t) : t :=
  set__v_fc_flow
    (Z.lor (Z.land (_v_fc_flow self) (Z.lnot 0xf0000000)) (Z.shiftl v 28)) self.

Definition fc (self : t) : Z := Z.land (Z.shiftr (_v_fc_flow self) 20) 0xff.

Definition set_fc (v : Z) (self : t) : t :=
  set__v_fc_flow
    (Z.lor (Z.land (_v_fc_flow self) (Z.lnot 0xff00000)) (Z.shiftl v 20)) self.

Definition flow (self : t) : Z := Z.land (_v_fc_flow self) 0xfffff.

Definition set_flow (v : Z) (self : t) : t :=
  set__v_fc_flow
    (Z.lor (Z.land (_v_fc_flow self) (Z.lnot 0xfffff)) (Z.land v 0xfffff)) self.

(** The payload region the chain walk starts from. *)
Definition region (plen : Z) (data : bytes) : bytes :=
  if plen =? 0
  then data                           (* due to jumbo payload or TSO *)
  else slice data None (Some plen).

(** The [try ... except (KeyError, dpkt.UnpackError)] at the end of
    [unpack]. *)
Definition upper (next_ext_hdr : option Z) (buf : bytes) : outcome (payload U) :=
  match next_ext_hdr ≫= (_protosw !!.) with
  | None => Ok (Raw buf)              (* KeyError *)
  | Some cls =>
      match cls buf with
      | Ok o => Ok (Obj o)
      | Raise e =>
          match e with
          | KeyError | UnpackError | NeedData => Ok (Raw buf)
          | _ => Raise e
          end
      | Loops => Loops
      end
  end.

Definition unpack (buf : bytes) : outcome t :=
  let* (hdr, data) := Packet.unpack __hdr_len__ buf in
  let _v_fc_flow := struct.unpack_I (Packet.field 0 4 hdr) in
  let plen := struct.unpack_H (Packet.field 4 2 hdr) in
  let nxt := struct.unpack_B (Packet.field 6 1 hdr) in
  let hlim := struct.unpack_B (Packet.field 7 1 hdr) in
  let src := Packet.field 8 16 hdr in
  let dst := Packet.field 24 16 hdr in
  let buf := region plen data in
  let* (extension_hdrs, buf, next_ext_hdr) :=
    walk (S (length buf)) ∅ buf (Some nxt) in
  let* data := upper next_ext_hdr buf in
  Ok (mk _v_fc_flow plen nxt hlim src dst data extension_hdrs next_ext_hdr).


(** The [for hdr in ext_hdrs] loop of [headers_str]. *)
Fixpoint headers_loop (ids : list Z) (extension_hdrs : gmap Z ext_hdr)
    (header_str : bytes) : outcome bytes :=
  match ids with
  | [] => Ok header_str
  | hdr :: ids =>
      match extension_hdrs !! hdr with
      | Some ext =>
          let* b := ext_bytes ext in
          headers_loop ids extension_hdrs (header_str ++ b)
      | None => headers_loop ids extension_hdrs header_str
      end
  end.

(** Output extension headers in order defined in RFC1883 (except dest opts) *)
Definition headers_str (self : t) : outcome bytes :=
  headers_loop ext_hdrs (extension_hdrs self) [].

Definition pack_hdr (self : t) : outcome bytes :=
  Packet.pack_hdr (
    let* a := struct.pack_I (_v_fc_flow self) in
    let* b := struct.pack_H (plen self) in
    let* c := struct.pack_B (nxt self) in
    let* d := struct.pack_B (hlim self) in
    Ok (a ++ b ++ c ++ d ++ struct.pack_16s (src self) ++ struct.pack_16s (dst self))).

(** [bytes(self.data)] *)
Definition data_bytes (d : payload U) : bytes :=
  match d with
  | Raw b => b
  | Obj o => pl_bytes o
  end.

(** [self.data.sum]: a byte string has no such attribute. *)
Definition data_sum (d : payload U) : outcome Z :=
  match d with
  | Raw _ => Raise AttributeError
  | Obj o =>
      match pl_sum o with
      | Some s => Ok s
      | None => Raise AttributeError
      end
  end.

(** [self.data.sum = s] inside [try ... except AttributeError: pass]. *)
Definition data_set_sum (s : Z) (d : payload U) : payload U :=
  match d with
  | Raw b => Raw b
  | Obj o =>
      match pl_set_sum s o with
      | Some o' => Obj o'
      | None => Obj o
      end
  end.

(** [struct.pack('>16s16sxBH', src, dst, nxt, n)] *)
Definition pseudo_header (src dst : bytes) (nxt n : Z) : outcome bytes :=
  let* a := struct.pack_B nxt in
  let* b := struct.pack_H n in
  Ok (struct.pack_16s src ++ struct.pack_16s dst ++ [x00] ++ a ++ b).

(** The checksum fix-up at the head of [__bytes__]: the packet with the
    payload checksum set where the code sets it. *)
Definition fixup (self : t) : outcome t :=
  match p self with
  | None => Raise AttributeError
  | Some p =>
      if (p =? 6) || (p =? 17) || (p =? 58) then
        let* sum := data_sum (data self) in
        if sum =? 0 then
          (* XXX - set TCP, UDP, and ICMPv6 checksums *)
          let p := data_bytes (data self) in
          let* s := pseudo_header (src self) (dst self) (nxt self) (blen p) in
          let s := dpkt.in_cksum_add 0 s in
          let s := dpkt.in_cksum_add s p in
          Ok (set_data (data_set_sum (dpkt.in_cksum_done s) (data self)) self)
        else Ok self
      else Ok self
  end.

(** [__bytes__]: the bytes, and the packet as the call leaves it. *)
Definition to_bytes (self : t) : outcome (t * bytes) :=
  let* self := fixup self in
  let* h := pack_hdr self in
  let* hs := headers_str self in
  Ok (self, h ++ hs ++ data_bytes (data self)).

(** [set_proto]: register the class that decodes payload protocol [p].
    The code updates the dict of the class in place; here the registry
    after the call is returned, for the caller to decode with. *)
Definition set_proto (p : Z) (pktclass : bytes -> outcome U)
    : gmap Z (bytes -> outcome U) :=
  <[p := pktclass]> _protosw.

(** [get_proto]: a missing key raises KeyError. *)
Definition get_proto (p : Z) : outcome (bytes -> outcome U) :=
  match _protosw !! p with
  | Some pktclass => Ok pktclass
  | None => Raise KeyError
  end.

End IP6.
End IP6.

(** ** A checksummed upper-layer segment

    The decoders of the protocol registry (TCP, UDP, ICMPv6, ...) live in
    other modules of the library.  [Segment] is the part of them that
    [IP6] touches: a header of [hdr_len] bytes holding a big-endian 16-bit
    [sum] at offset [off], and the bytes around it. *)

Module Segment.

Record t : Type := mk { pre : bytes; sum : Z; post : bytes }.

Definition unpack (off hdr_len : nat) (buf : bytes) : outcome t :=
  if blen buf <? Z.of_nat hdr_len
  then Raise NeedData
  else Ok (mk (take off buf) (struct.unpack_H (take 2 (drop off buf)))
             (drop (off + 2) buf)).

Definition to_bytes (self : t) : bytes :=
  pre self ++ [chr (Z.shiftr (sum self) 8); chr (sum self)] ++ post self.

#[global] Instance payload : Payload t := {
  pl_bytes := to_bytes;
  pl_sum self := Some (sum self);
  pl_set_sum s self := Some (mk (pre self) s (post self))
}.

(** A registry with TCP (6), UDP (17) and ICMPv6 (58) shaped segments. *)
Definition protosw : gmap Z (bytes -> outcome t) :=
  {[ 6 := unpack 16 20; 17 := unpack 6 8; 58 := unpack 2 4 ]}.

End Segment.

(** ** Packets of the module's tests *)

(** The packet of [test_ipg]: a TCP segment with no extension header. *)
Definition test_ipg_s : bytes :=
  [x60; x00; x00; x00; x00; x28; x06; x40; xfe; x80; x00; x00; x00; x00; x00; x00;
   x02; x11; x24; xff; xfe; x8c; x11; xde; xfe; x80; x00; x00; x00; x00; x00; x00;
   x02; xb0; xd0; xff; xfe; xe1; x80; x72; xcd; xca; x00; x16; x04; x84; x46; xd5;
   x00; x00; x00; x00; xa0; x02; xff; xff; xf8; x09; x00; x00; x02; x04; x05; xa0;
   x01; x03; x03; x00; x01; x01; x08; x0a; x7d; x18; x35; x3f; x00; x00; x00; x00].

(** The packet of [test_ip6_routing_header]: a Routing header, then TCP. *)
Definition test_ip6_routing_header_s : bytes :=
  [x60; x00; x00; x00; x00; x3c; x2b; x40; x20; x48; x00; x00; x00; x00; x00; x00;
   x00; x00; x00; x00; x00; x00; xde; xca; x20; x47; x00; x00; x00; x00; x00; x00;
   x00; x00; x00; x00; x00; x00; xca; xfe; x06; x04; x00; x02; x00; x00; x00; x00;
   x20; x01; x00; x00; x00; x00; x00; x00; x00; x00; x00; x00; x00; x00; xde; xca;
   x20; x22; x00; x00; x00; x00; x00; x00; x00; x00; x00; x00; x00; x00; xde; xca;
   x00; x14; x00; x50; x00; x00; x00; x00; x00; x00; x00; x00; x50; x02; x20; x00;
   x91; x7f; x00; x00].

(** The Fragment header of [test_ip6_fragment_header]. *)
Definition test_ip6_fragment_header_s : bytes :=
  [x06; xee; xff; xfb; x00; x00; xff; xff].

(** The packet with a Fragment header of [test_ip6_fragment_header]. *)
Definition test_ip6_fragment_header_ip : bytes :=
  [x60; x00; x00; x00; x00; x10; x2c; x00; x02; x22; x00; x00; x00; x00; x00; x00;
   x00; x00; x00; x00; x00; x00; x00; x02; x03; x33; x00; x00; x00; x00; x00; x00;
   x00; x00; x00; x00; x00; x00; x00; x03; x29; x00; x00; x01; x00; x00; x00; x00;
   x60; x00; x00; x00; x00; x10; x2c; x00].

(** The Options header of [test_ip6_options_header]. *)
Definition test_ip6_options_header_s : bytes :=
  [x3b; x04; x01; x02; x00; x00; xc9; x10; x00; x00; x00; x00; x00; x00; x00; x00;
   x00; x00; x00; x00; x00; x00; x00; x00; x01; x00; xc2; x04; x00; x00; x00; x00;
   x05; x02; x00; x00; x01; x02; x00; x00].

(** The Authentication header of [test_ip6_ah_header]. *)
Definition test_ip6_ah_header_s : bytes :=
  [x3b; x04; x00; x00; x02; x02; x02; x02; x01; x01; x01; x01; x78; x78; x78; x78;
   x78; x78; x78; x78].

(** The ESP header of [test_ip6_esp_header]. *)
Definition test_ip6_esp_header_s : bytes :=
  [x00; x00; x01; x00; x00; x00; x00; x44; xe2; x4f; x9e; x68; xf3; xcd; xb1; x5f;
   x61; x65; x42; x8b; x78; x0b; x4a; xfd; x13; xf0; x15; x98; xf5; x55; x16; xa8;
   x12; xb3; xb8; x4d; xbc; x16; xb2; x14; xbe; x3d; xf9; x96; xd4; xa0; x39; x1f;
   x85; x74; x25; x81; x83; xa6; x0d; x99; xb6; xba; xa3; xcc; xb6; xe0; x9a; x78;
   xee; xf2; xaf; x9a].


(** An Options header of 8 bytes ([len] = 0) whose only option, of type 5,
    declares 10 bytes of value where the header has 4 left; 8 more bytes
    follow the header in the buffer. *)
Definition overlong_option_s : bytes :=
  [x3b; x00; x05; x0a; xaa; xbb; xcc; xdd;
   x01; x02; x03; x04; x05; x06; x07; x08].

(** The packet of [test_ip6_routing_header] with the TCP checksum field
    (bytes 96 and 97) set to zero. *)
Definition test_ip6_routing_header_zero_sum : bytes :=
  take 96 test_ip6_routing_header_s ++ [x00; x00] ++
  drop 98 test_ip6_routing_header_s.

(** The checksum of the fix-up as the specification words it, to compare
    with what [IP6.fixup] writes: the one's-complement sum over the
    pseudo-header (source address, destination address, a zero byte, the
    upper-layer protocol id, the big-endian 16-bit length of the serialized
    payload) followed by the serialized payload. *)
Definition spec_fixup_checksum (source_address destination_address : bytes)
    (upper_layer_protocol : Z) (payload : bytes) : Z :=
  let pseudo :=
    source_address ++ destination_address ++
    [x00; chr upper_layer_protocol] ++
    [chr (Z.shiftr (blen payload) 8); chr (blen payload)] in
  dpkt.in_cksum_done (dpkt.in_cksum_add (dpkt.in_cksum_add 0 pseudo) payload).

(** The packet of [test_ipg] followed by one byte more than its payload
    length (40) covers. *)
Definition test_ipg_trailing : bytes := test_ipg_s ++ [x00].

(** The packet of [test_ipg] with the TCP checksum field (bytes 56 and 57)
    set to zero, as the test does on the decoded packet. *)
Definition test_ipg_zero_sum : bytes :=
  take 56 test_ipg_s ++ [x00; x00] ++ drop 58 test_ipg_s.

(** ** IPv6 carried in IPv6 *)

(** A registry in which protocol 41 (IPv6 encapsulation) is decoded by
    [IP6] itself, as the registry of the library has it; the inner packet
    decodes its own payload with [Segment.protosw]. *)
Definition encapsulation_protosw : gmap Z (bytes -> outcome (@IP6.t Segment.t)) :=
  {[ 41 := IP6.unpack Segment.protosw ]}.

(** A packet with next header 41 that carries an inner IPv6 packet.  The
    inner packet has next header 0 and three bytes of payload: an Options
    header cut off after the type byte (5) of its first option. *)
Definition encapsulated_short_option : bytes :=
  take 4 test_ipg_s ++ [x00; x2b; x29; x40] ++ take 32 (drop 8 test_ipg_s) ++
  take 4 test_ipg_s ++ [x00; x03; x00; x40] ++ take 32 (drop 8 test_ipg_s) ++
  [x3b; x00; x05].
(* ================================================================== *)
(** * Properties *)

(** ** Bytes and big-endian fields *)

Lemma compat_ord_range (b : byte) : 0 <= compat_ord b < 256.
Proof.
  unfold compat_ord. pose proof (Byte.to_N_bounded b). lia.
Qed.

Lemma chr_compat_ord (b : byte) : chr (compat_ord b) = b.
Proof.
  unfold chr. rewrite Z.mod_small by apply compat_ord_range.
  unfold compat_ord. rewrite N2Z.id, Byte.of_to_N. reflexivity.
Qed.

Lemma lor_shiftl_add (a c n : Z) :
  0 <= n -> 0 <= c < 2 ^ n -> Z.lor (Z.shiftl a n) c = a * 2 ^ n + c.
Proof.
  intros Hn Hc.
  assert (Hland : Z.land (Z.shiftl a n) c = 0).
  { apply Z.bits_inj'. intros i Hi.
    rewrite Z.land_spec, Z.bits_0.
    destruct (Z.lt_ge_cases i n) as [Hlt | Hge].
    - rewrite Z.shiftl_spec_low by lia. reflexivity.
    - rewrite <- (Z.mod_small c (2 ^ n)) by lia.
      rewrite Z.mod_pow2_bits_high by lia. apply andb_false_r. }
  rewrite <- Z.lxor_lor by exact Hland.
  rewrite <- Z.add_nocarry_lxor by exact Hland.
  rewrite Z.shiftl_mul_pow2 by lia. reflexivity.
Qed.

Lemma chr_mod (z : Z) : chr (z mod 256) = chr z.
Proof. unfold chr. rewrite Z.mod_mod by lia. reflexivity. Qed.

Lemma chr_add_mul (a : Z) (b : byte) : chr (a * 256 + compat_ord b) = b.
Proof.
  rewrite <- chr_mod, Z.add_comm, Z.mod_add by lia.
  rewrite chr_mod. apply chr_compat_ord.
Qed.

Lemma unpack_H_eq (a c : byte) :
  struct.unpack_H [a; c] = compat_ord a * 256 + compat_ord c.
Proof.
  pose proof (compat_ord_range c).
  unfold struct.unpack_H. rewrite lor_shiftl_add by lia. reflexivity.
Qed.

Lemma unpack_I_eq (a c d e : byte) :
  struct.unpack_I [a; c; d; e] =
  ((compat_ord a * 256 + compat_ord c) * 256 + compat_ord d) * 256 + compat_ord e.
Proof.
  pose proof (compat_ord_range c). pose proof (compat_ord_range d).
  pose proof (compat_ord_range e).
  unfold struct.unpack_I.
  rewrite (lor_shiftl_add _ (compat_ord e)) by lia.
  rewrite (lor_shiftl_add _ (_ + compat_ord e)) by lia.
  rewrite lor_shiftl_add by lia. lia.
Qed.

Lemma unpack_B_range (l : bytes) : 0 <= struct.unpack_B l < 256.
Proof.
  destruct l as [|a [|? ?]]; simpl; try lia. apply compat_ord_range.
Qed.

Lemma unpack_H_range (l : bytes) : 0 <= struct.unpack_H l < 65536.
Proof.
  destruct l as [|a [|c [|? ?]]]; try (simpl; lia).
  rewrite unpack_H_eq.
  pose proof (compat_ord_range a). pose proof (compat_ord_range c). lia.
Qed.

Lemma pack_unpack_B (l : bytes) :
  length l = 1%nat -> struct.pack_B (struct.unpack_B l) = Ok l.
Proof.
  destruct l as [|a [|? ?]]; try discriminate. intros _.
  pose proof (compat_ord_range a) as Ha.
  unfold struct.pack_B, struct.fits, struct.unpack_B.
  replace (0 <=? compat_ord a) with true by lia.
  replace (compat_ord a <? 2 ^ 8) with true by lia.
  simpl. rewrite chr_compat_ord. reflexivity.
Qed.

Lemma pack_unpack_H (l : bytes) :
  length l = 2%nat -> struct.pack_H (struct.unpack_H l) = Ok l.
Proof.
  destruct l as [|a [|c [|? ?]]]; try discriminate. intros _.
  pose proof (compat_ord_range a) as Ha. pose proof (compat_ord_range c) as Hc.
  rewrite unpack_H_eq.
  unfold struct.pack_H, struct.fits.
  replace (0 <=? _) with true by lia.
  replace (_ <? 2 ^ 16) with true by lia.
  simpl. rewrite chr_add_mul.
  rewrite Z.shiftr_div_pow2 by lia.
  replace ((compat_ord a * 256 + compat_ord c) / 2 ^ 8) with (compat_ord a)
    by (change (2 ^ 8) with 256; apply Z.div_unique with (compat_ord c); lia).
  rewrite chr_compat_ord. reflexivity.
Qed.

Lemma pack_unpack_I (l : bytes) :
  length l = 4%nat -> struct.pack_I (struct.unpack_I l) = Ok l.
Proof.
  destruct l as [|a [|c [|d [|e [|? ?]]]]]; try discriminate. intros _.
  pose proof (compat_ord_range a) as Ha. pose proof (compat_ord_range c) as Hc.
  pose proof (compat_ord_range d) as Hd. pose proof (compat_ord_range e) as He.
  rewrite unpack_I_eq.
  unfold struct.pack_I, struct.fits.
  replace (0 <=? _) with true by lia.
  replace (_ <? 2 ^ 32) with true by lia.
  simpl. rewrite chr_add_mul.
  rewrite !Z.shiftr_div_pow2 by lia.
  set (A := compat_ord a) in *. set (C := compat_ord c) in *.
  set (D := compat_ord d) in *. set (E := compat_ord e) in *.
  replace ((((A * 256 + C) * 256 + D) * 256 + E) / 2 ^ 8)
    with ((A * 256 + C) * 256 + D)
    by (change (2 ^ 8) with 256; apply Z.div_unique with E; lia).
  replace ((((A * 256 + C) * 256 + D) * 256 + E) / 2 ^ 16)
    with (A * 256 + C)
    by (change (2 ^ 16) with 65536;
        apply Z.div_unique with (D * 256 + E); lia).
  replace ((((A * 256 + C) * 256 + D) * 256 + E) / 2 ^ 24) with A
    by (change (2 ^ 24) with 16777216;
        apply Z.div_unique with ((C * 256 + D) * 256 + E); lia).
  subst A C D E. rewrite !chr_add_mul, chr_compat_ord. reflexivity.
Qed.

(** ** Slices and indexing *)

Lemma blen_nonneg (b : bytes) : 0 <= blen b.
Proof. unfold blen. lia. Qed.

Lemma slice_from (b : bytes) (a : Z) :
  0 <= a -> slice b (Some a) None = drop (Z.to_nat a) b.
Proof.
  intros Ha. unfold slice, norm_index, blen.
  replace (a <? 0) with false by lia.
  destruct (Z.le_gt_cases a (Z.of_nat (length b))) as [Hle | Hgt].
  - rewrite Z.min_l by lia. apply take_ge. rewrite length_drop. lia.
  - rewrite Z.min_r by lia. rewrite Nat2Z.id, Z.sub_diag. simpl.
    rewrite drop_ge by lia. rewrite drop_ge by lia. reflexivity.
Qed.

Lemma slice_to (b : bytes) (z : Z) :
  0 <= z -> slice b None (Some z) = take (Z.to_nat z) b.
Proof.
  intros Hz. unfold slice, norm_index, blen.
  replace (z <? 0) with false by lia.
  rewrite Z.sub_0_r. simpl. rewrite drop_0.
  destruct (Z.le_gt_cases z (Z.of_nat (length b))) as [Hle | Hgt].
  - rewrite Z.min_l by lia. reflexivity.
  - rewrite Z.min_r by lia. rewrite Nat2Z.id.
    rewrite take_ge by lia. rewrite take_ge by lia. reflexivity.
Qed.

Lemma slice_range (b : bytes) (a z : Z) :
  0 <= a <= z ->
  slice b (Some a) (Some z) = take (Z.to_nat (z - a)) (drop (Z.to_nat a) b).
Proof.
  intros Haz. unfold slice, norm_index, blen.
  replace (a <? 0) with false by lia. replace (z <? 0) with false by lia.
  destruct (Z.le_gt_cases a (Z.of_nat (length b))) as [Hle | Hgt].
  - rewrite (Z.min_l a) by lia.
    destruct (Z.le_gt_cases z (Z.of_nat (length b))) as [Hle' | Hgt'].
    + rewrite Z.min_l by lia. reflexivity.
    + rewrite Z.min_r by lia.
      rewrite take_ge by (rewrite length_drop; lia).
      rewrite take_ge by (rewrite length_drop; lia). reflexivity.
  - rewrite (drop_ge b (Z.to_nat a)) by lia.
    rewrite !Z.min_r by lia. rewrite Nat2Z.id, drop_ge by lia.
    rewrite !take_nil. reflexivity.
Qed.

Lemma getitem_nonneg (b : bytes) (i : Z) :
  0 <= i -> getitem b i = b !! Z.to_nat i.
Proof. intros Hi. unfold getitem. replace (i <? 0) with false by lia. reflexivity. Qed.

Lemma length_slice_le (b : bytes) (lo hi : option Z) :
  (length (slice b lo hi) <= length b)%nat.
Proof.
  unfold slice. rewrite length_take, length_drop. lia.
Qed.

(** ** Outcomes *)

Lemma bind_Ok {A B} (m : outcome A) (k : A -> outcome B) (b : B) :
  bind m k = Ok b -> exists a, m = Ok a /\ k a = Ok b.
Proof. destruct m; simpl; intros Hb; try discriminate. eauto. Qed.

Lemma bind_terminates {A B} (m : outcome A) (k : A -> outcome B) :
  terminates m -> (forall a, m = Ok a -> terminates (k a)) -> terminates (bind m k).
Proof.
  unfold terminates. destruct m; simpl; intros Hm Hk; auto.
Qed.

Lemma Packet_unpack_Ok (n : nat) (buf hdr data : bytes) :
  Packet.unpack n buf = Ok (hdr, data) ->
  (n <= length buf)%nat /\ hdr = take n buf /\ data = drop n buf /\ length hdr = n.
Proof.
  unfold Packet.unpack, blen. destruct (_ <? _) eqn:Hlt; intros Hu; inversion Hu.
  repeat split; try lia. rewrite length_take. lia.
Qed.

Lemma Packet_unpack_short (n : nat) (buf : bytes) :
  (length buf < n)%nat -> Packet.unpack n buf = Raise NeedData.
Proof.
  intros Hlt. unfold Packet.unpack, blen.
  replace (_ <? _) with true by lia. reflexivity.
Qed.

Lemma Packet_unpack_long (n : nat) (buf : bytes) :
  (n <= length buf)%nat -> Packet.unpack n buf = Ok (take n buf, drop n buf).
Proof.
  intros Hle. unfold Packet.unpack, blen.
  replace (_ <? _) with false by lia. reflexivity.
Qed.

(** ** The option scan *)

Module ScanFacts.
Import IP6OptsHeader.

(** The position only moves forward, so [length - 2 - index] iterations
    are enough for the loop condition to become false. *)
Lemma scan_terminates (fuel : nat) :
  forall (data : bytes) (length index : Z) (options : list Opt.t),
    length - 2 - index <= Z.of_nat fuel ->
    terminates (scan fuel data length index options).
Proof.
  unfold terminates.
  induction fuel as [|fuel IH]; intros data L i acc Hfuel; simpl.
  - replace (i <? L - 2) with false by lia. discriminate.
  - destruct (i <? L - 2) eqn:Hi; [|discriminate].
    destruct (getitem data i) as [t|]; [|discriminate].
    destruct (compat_ord t =? 0).
    + apply IH. lia.
    + destruct (getitem data (i + 1)) as [l|]; [|discriminate].
      pose proof (compat_ord_range l).
      destruct (compat_ord t =? 1); apply IH; lia.
Qed.

(** Once the position has reached the end of the region the scan stops
    with what it has. *)
Lemma scan_stop (fuel : nat) (data : bytes) (length index : Z)
    (options : list Opt.t) :
  length - 2 <= index -> scan fuel data length index options = Ok options.
Proof.
  intros Hend. destruct fuel; simpl;
    replace (index <? length - 2) with false by lia; reflexivity.
Qed.

(** The only exception the scan raises is IndexError. *)
Lemma scan_raises (fuel : nat) :
  forall (data : bytes) (length index : Z) (options : list Opt.t) (e : exn),
    scan fuel data length index options = Raise e -> e = IndexError.
Proof.
  induction fuel as [|fuel IH]; intros data L i acc e; simpl.
  - destruct (i <? L - 2); discriminate.
  - destruct (i <? L - 2); [|discriminate].
    destruct (getitem data i) as [t|]; [|congruence].
    destruct (compat_ord t =? 0); [apply IH|].
    destruct (getitem data (i + 1)) as [l|]; [|congruence].
    destruct (compat_ord t =? 1); apply IH.
Qed.

(** The options already collected stay at the front of the result. *)
Lemma scan_prefix (fuel : nat) :
  forall (data : bytes) (length index : Z) (options res : list Opt.t),
    scan fuel data length index options = Ok res ->
    exists more, res = options ++ more.
Proof.
  induction fuel as [|fuel IH]; intros data L i acc res; simpl.
  - destruct (i <? L - 2); [discriminate|]. intros [= <-].
    exists []. rewrite app_nil_r. reflexivity.
  - destruct (i <? L - 2).
    2:{ intros [= <-]. exists []. rewrite app_nil_r. reflexivity. }
    destruct (getitem data i) as [t|]; [|discriminate].
    destruct (compat_ord t =? 0); [apply IH|].
    destruct (getitem data (i + 1)) as [l|]; [|discriminate].
    destruct (compat_ord t =? 1); [apply IH|].
    intros Hs. apply IH in Hs as [more ->].
    rewrite <- app_assoc. eauto.
Qed.

End ScanFacts.

(** ** The extension header classes *)

(** Case analysis on a lookup in [ext_hdrs_cls] (or any map written as a
    chain of inserts): one goal per registered id. *)
Ltac lookup_cases H :=
  repeat (rewrite lookup_insert in H;
          case_decide; [injection H as <-; subst|]);
  try (rewrite lookup_singleton in H;
       case_decide; [injection H as <-; subst|discriminate H]);
  try (rewrite lookup_empty in H; discriminate H).

Lemma field_take (off n m : nat) (buf : bytes) :
  (off + n <= m)%nat -> Packet.field off n (take m buf) = take n (drop off buf).
Proof.
  intros Hle. unfold Packet.field.
  rewrite !take_drop_commute, take_take.
  replace ((off + n) `min` m)%nat with (off + n)%nat by lia. reflexivity.
Qed.

Lemma OptsHeader_unpack_Ok (buf : bytes) (h : IP6OptsHeader.t) :
  IP6OptsHeader.unpack buf = Ok h ->
  (2 <= length buf)%nat /\
  IP6OptsHeader.nxt h = struct.unpack_B (take 1 buf) /\
  IP6OptsHeader.len h = struct.unpack_B (take 1 (drop 1 buf)) /\
  IP6OptsHeader.data h = drop 2 buf /\
  IP6OptsHeader.length h = (IP6OptsHeader.len h + 1) * 8.
Proof.
  unfold IP6OptsHeader.unpack. intros Hu.
  apply bind_Ok in Hu as [[hdr data] [Hp Hu]].
  apply Packet_unpack_Ok in Hp as (Hlen & -> & -> & _).
  apply bind_Ok in Hu as [opts [_ Hu]]. injection Hu as <-. simpl.
  unfold IP6OptsHeader.__hdr_len__ in *.
  rewrite !field_take by lia. rewrite drop_0.
  repeat split; try lia; reflexivity.
Qed.

Lemma field_length (off n : nat) (hdr : bytes) :
  (off + n <= length hdr)%nat -> length (Packet.field off n hdr) = n.
Proof.
  intros Hle. unfold Packet.field. rewrite length_take, length_drop. lia.
Qed.

Lemma take_take_drop {A} (n m : nat) (l : list A) :
  take n l ++ take m (drop n l) = take (n + m) l.
Proof.
  revert l. induction n as [|n IH]; intros l; [reflexivity|].
  destruct l as [|x l]; simpl; [by rewrite take_nil|]. by rewrite IH.
Qed.

Lemma field_app (off n off' m : nat) (hdr : bytes) :
  off' = (off + n)%nat ->
  Packet.field off n hdr ++ Packet.field off' m hdr = Packet.field off (n + m) hdr.
Proof.
  intros ->. unfold Packet.field.
  rewrite <- drop_drop. apply take_take_drop.
Qed.

Lemma field_all (n : nat) (hdr : bytes) :
  (length hdr <= n)%nat -> Packet.field 0 n hdr = hdr.
Proof. intros Hle. unfold Packet.field. rewrite drop_0. by apply take_ge. Qed.

Lemma pack_16s_id (b : bytes) : length b = 16%nat -> struct.pack_16s b = b.
Proof.
  intros Hlen. unfold struct.pack_16s.
  rewrite take_app_le by lia. apply take_ge. lia.
Qed.

(** Packing the fields unpacked from a header gives the header back. *)
Ltac pack_fields :=
  rewrite ?pack_unpack_B, ?pack_unpack_H, ?pack_unpack_I
    by (apply field_length; lia);
  simpl;
  rewrite ?pack_16s_id by (apply field_length; lia);
  repeat rewrite field_app by reflexivity;
  rewrite field_all by lia; reflexivity.

Lemma OptsHeader_pack_unpack (buf : bytes) (h : IP6OptsHeader.t) :
  IP6OptsHeader.unpack buf = Ok h ->
  IP6OptsHeader.pack_hdr h = Ok (take 2 buf).
Proof.
  unfold IP6OptsHeader.unpack. intros Hu.
  apply bind_Ok in Hu as [[hdr data] [Hp Hu]].
  apply Packet_unpack_Ok in Hp as (Hlen & Hhdr & -> & Hl).
  apply bind_Ok in Hu as [opts [_ Hu]]. injection Hu as <-.
  unfold IP6OptsHeader.pack_hdr, IP6OptsHeader.__hdr_len__ in *. simpl.
  rewrite <- Hhdr. pack_fields.
Qed.

Lemma OptsHeader_len_range (buf : bytes) (h : IP6OptsHeader.t) :
  IP6OptsHeader.unpack buf = Ok h -> 0 <= IP6OptsHeader.len h < 256.
Proof.
  intros Hu. apply OptsHeader_unpack_Ok in Hu as (_ & _ & -> & _).
  apply unpack_B_range.
Qed.

Lemma RoutingHeader_unpack_Ok (buf : bytes) (h : IP6RoutingHeader.t) :
  IP6RoutingHeader.unpack buf = Ok h ->
  (8 <= length buf)%nat /\
  IP6RoutingHeader.nxt h = struct.unpack_B (take 1 buf) /\
  0 <= IP6RoutingHeader.len h < 256 /\
  IP6RoutingHeader.data h =
    slice buf (Some 8) (Some (8 + IP6RoutingHeader.len h `div` 2 * 16)) /\
  IP6RoutingHeader.length h = IP6RoutingHeader.len h * 8 + 8 /\
  IP6RoutingHeader.pack_hdr h = Ok (take 8 buf).
Proof.
  unfold IP6RoutingHeader.unpack. intros Hu.
  apply bind_Ok in Hu as [[hdr data] [Hp Hu]].
  apply Packet_unpack_Ok in Hp as (Hlen & Hhdr & -> & Hl).
  injection Hu as <-.
  unfold IP6RoutingHeader.pack_hdr, IP6RoutingHeader.__hdr_len__ in *. simpl.
  split; [lia|]. split; [subst hdr; by rewrite field_take, drop_0 by lia|].
  split; [apply unpack_B_range|]. split; [reflexivity|]. split; [reflexivity|].
  rewrite <- Hhdr. pack_fields.
Qed.

Lemma FragmentHeader_unpack_Ok (buf : bytes) (h : IP6FragmentHeader.t) :
  IP6FragmentHeader.unpack buf = Ok h ->
  (8 <= length buf)%nat /\
  IP6FragmentHeader.nxt h = struct.unpack_B (take 1 buf) /\
  IP6FragmentHeader.data h = [] /\
  IP6FragmentHeader.length h = 8 /\
  IP6FragmentHeader.pack_hdr h = Ok (take 8 buf).
Proof.
  unfold IP6FragmentHeader.unpack. intros Hu.
  apply bind_Ok in Hu as [[hdr data] [Hp Hu]].
  apply Packet_unpack_Ok in Hp as (Hlen & Hhdr & -> & Hl).
  injection Hu as <-.
  unfold IP6FragmentHeader.pack_hdr, IP6FragmentHeader.__hdr_len__ in *. simpl.
  split; [lia|]. split; [subst hdr; by rewrite field_take, drop_0 by lia|].
  split; [reflexivity|]. split; [reflexivity|].
  rewrite <- Hhdr. pack_fields.
Qed.

Lemma AHHeader_unpack_Ok (buf : bytes) (h : IP6AHHeader.t) :
  IP6AHHeader.unpack buf = Ok h ->
  (12 <= length buf)%nat /\
  IP6AHHeader.nxt h = struct.unpack_B (take 1 buf) /\
  0 <= IP6AHHeader.len h < 256 /\
  IP6AHHeader.data h = drop 12 buf /\
  IP6AHHeader.length h = (IP6AHHeader.len h + 2) * 4 /\
  IP6AHHeader.pack_hdr h = Ok (take 12 buf).
Proof.
  unfold IP6AHHeader.unpack. intros Hu.
  apply bind_Ok in Hu as [[hdr data] [Hp Hu]].
  apply Packet_unpack_Ok in Hp as (Hlen & Hhdr & -> & Hl).
  injection Hu as <-.
  unfold IP6AHHeader.pack_hdr, IP6AHHeader.__hdr_len__ in *. simpl.
  split; [lia|]. split; [subst hdr; by rewrite field_take, drop_0 by lia|].
  split; [apply unpack_B_range|]. split; [reflexivity|]. split; [reflexivity|].
  rewrite <- Hhdr. pack_fields.
Qed.

Lemma ESPHeader_unpack_Ok (buf : bytes) (h : IP6ESPHeader.t) :
  IP6ESPHeader.unpack buf = Ok h ->
  (8 <= length buf)%nat /\
  IP6ESPHeader.data h = drop 8 buf /\
  IP6ESPHeader.length h = blen buf /\
  IP6ESPHeader.pack_hdr h = Ok (take 8 buf).
Proof.
  unfold IP6ESPHeader.unpack. intros Hu.
  apply bind_Ok in Hu as [[hdr data] [Hp Hu]].
  apply Packet_unpack_Ok in Hp as (Hlen & Hhdr & -> & Hl).
  injection Hu as <-.
  unfold IP6ESPHeader.pack_hdr, IP6ESPHeader.__hdr_len__ in *. simpl.
  split; [lia|]. split; [reflexivity|].
  split; [unfold blen; rewrite length_drop; lia|].
  rewrite <- Hhdr. pack_fields.
Qed.

(** ** What every registered decoder does *)

Lemma ext_hdrs_cls_dom (k : Z) :
  k ∈ ext_hdrs <-> is_Some (ext_hdrs_cls !! k).
Proof.
  unfold ext_hdrs, ext_hdrs_cls. split.
  - rewrite !elem_of_cons, elem_of_nil.
    intros [->|[->|[->|[->|[->|[->|[]]]]]]]; eexists; reflexivity.
  - intros [cls Hk]. lookup_cases Hk; by apply (bool_decide_unpack _).
Qed.

(** Every decoded header is at least 8 bytes long. *)
Lemma ext_length_ge_8 (k : Z) (cls : bytes -> outcome ext_hdr) (buf : bytes)
    (ext : ext_hdr) :
  ext_hdrs_cls !! k = Some cls -> cls buf = Ok ext -> 8 <= ext_length ext.
Proof.
  intros Hk Hc. unfold ext_hdrs_cls in Hk. lookup_cases Hk;
    apply bind_Ok in Hc as [h [Hu [= <-]]]; simpl.
  - pose proof (OptsHeader_len_range _ _ Hu).
    apply OptsHeader_unpack_Ok in Hu as (_ & _ & _ & _ & ->). lia.
  - apply RoutingHeader_unpack_Ok in Hu as (_ & _ & ? & _ & -> & _). lia.
  - apply FragmentHeader_unpack_Ok in Hu as (_ & _ & _ & -> & _). lia.
  - apply ESPHeader_unpack_Ok in Hu as (? & _ & -> & _). unfold blen. lia.
  - apply AHHeader_unpack_Ok in Hu as (_ & _ & ? & _ & -> & _). lia.
  - pose proof (OptsHeader_len_range _ _ Hu).
    apply OptsHeader_unpack_Ok in Hu as (_ & _ & _ & _ & ->). lia.
Qed.

(** A header is only decoded from a buffer that holds its fixed portion. *)
Lemma ext_decoded_hdr_len (k : Z) (cls : bytes -> outcome ext_hdr) (buf : bytes)
    (ext : ext_hdr) :
  ext_hdrs_cls !! k = Some cls -> cls buf = Ok ext ->
  exists n, ext_hdrs_hdr_len !! k = Some n /\ (2 <= n <= length buf)%nat.
Proof.
  intros Hk Hc. unfold ext_hdrs_cls in Hk. lookup_cases Hk;
    apply bind_Ok in Hc as [h [Hu [= <-]]];
    (eexists; split; [reflexivity|]);
    cbv [IP6OptsHeader.__hdr_len__ IP6RoutingHeader.__hdr_len__
         IP6FragmentHeader.__hdr_len__ IP6ESPHeader.__hdr_len__
         IP6AHHeader.__hdr_len__].
  - apply OptsHeader_unpack_Ok in Hu as (? & _). lia.
  - apply RoutingHeader_unpack_Ok in Hu as (? & _). lia.
  - apply FragmentHeader_unpack_Ok in Hu as (? & _). lia.
  - apply ESPHeader_unpack_Ok in Hu as (? & _). lia.
  - apply AHHeader_unpack_Ok in Hu as (? & _). lia.
  - apply OptsHeader_unpack_Ok in Hu as (? & _). lia.
Qed.

(** A buffer shorter than the fixed portion makes the decoder raise. *)
Lemma ext_short_buffer (k : Z) (cls : bytes -> outcome ext_hdr) (n : nat)
    (buf : bytes) :
  ext_hdrs_cls !! k = Some cls -> ext_hdrs_hdr_len !! k = Some n ->
  (length buf < n)%nat -> cls buf = Raise NeedData.
Proof.
  intros Hk Hn Hlt. unfold ext_hdrs_cls in Hk. lookup_cases Hk;
    vm_compute in Hn; injection Hn as <-.
  - unfold IP6OptsHeader.unpack. by rewrite Packet_unpack_short.
  - unfold IP6RoutingHeader.unpack. by rewrite Packet_unpack_short.
  - unfold IP6FragmentHeader.unpack. by rewrite Packet_unpack_short.
  - unfold IP6ESPHeader.unpack. by rewrite Packet_unpack_short.
  - unfold IP6AHHeader.unpack. by rewrite Packet_unpack_short.
  - unfold IP6OptsHeader.unpack. by rewrite Packet_unpack_short.
Qed.

(** No decoder runs forever. *)
Lemma ext_cls_terminates (k : Z) (cls : bytes -> outcome ext_hdr) (buf : bytes) :
  ext_hdrs_cls !! k = Some cls -> terminates (cls buf).
Proof.
  intros Hk. unfold ext_hdrs_cls in Hk. lookup_cases Hk.
  1,6: apply bind_terminates; [|discriminate];
       unfold IP6OptsHeader.unpack;
       apply bind_terminates;
       [unfold Packet.unpack; destruct (_ <? _); discriminate|];
       intros [hdr data] _; apply bind_terminates; [|discriminate];
       apply ScanFacts.scan_terminates; lia.
  - unfold IP6RoutingHeader.unpack, Packet.unpack. destruct (_ <? _); discriminate.
  - unfold IP6FragmentHeader.unpack, Packet.unpack. destruct (_ <? _); discriminate.
  - unfold IP6ESPHeader.unpack, Packet.unpack. destruct (_ <? _); discriminate.
  - unfold IP6AHHeader.unpack, Packet.unpack. destruct (_ <? _); discriminate.
Qed.

(** ** The chain walk *)

(** Each iteration leaves strictly fewer bytes. *)
Lemma walk_shrinks (k : Z) (cls : bytes -> outcome ext_hdr) (buf : bytes)
    (ext : ext_hdr) :
  ext_hdrs_cls !! k = Some cls -> cls buf = Ok ext ->
  (length (slice buf (Some (ext_length ext)) None) < length buf)%nat.
Proof.
  intros Hk Hc.
  pose proof (ext_length_ge_8 _ _ _ _ Hk Hc) as H8.
  destruct (ext_decoded_hdr_len _ _ _ _ Hk Hc) as (n & _ & Hn).
  rewrite slice_from by lia. rewrite length_drop. lia.
Qed.

Lemma walk_terminates (fuel : nat) :
  forall (m : gmap Z ext_hdr) (buf : bytes) (next : option Z),
    (length buf < fuel)%nat -> terminates (walk fuel m buf next).
Proof.
  induction fuel as [|fuel IH]; intros m buf next Hfuel; [lia|].
  simpl. destruct next as [k|]; [|discriminate].
  case_bool_decide as Hin; [|discriminate].
  destruct (ext_hdrs_cls !! k) as [cls|] eqn:Hk; [|discriminate].
  apply bind_terminates; [by eapply ext_cls_terminates|].
  intros ext Hc. apply IH.
  pose proof (walk_shrinks _ _ _ _ Hk Hc). lia.
Qed.

(** With enough fuel for the loop to finish, more fuel changes nothing. *)
Lemma walk_fuel (fuel : nat) :
  forall (fuel' : nat) (m : gmap Z ext_hdr) (buf : bytes) (next : option Z),
    (length buf < fuel)%nat -> (length buf < fuel')%nat ->
    walk fuel m buf next = walk fuel' m buf next.
Proof.
  induction fuel as [|fuel IH]; intros fuel' m buf next Hf Hf'; [lia|].
  destruct fuel' as [|fuel']; [lia|].
  simpl. destruct next as [k|]; [|reflexivity].
  case_bool_decide as Hin; [|reflexivity].
  destruct (ext_hdrs_cls !! k) as [cls|] eqn:Hk; [|reflexivity].
  destruct (cls buf) as [ext| |] eqn:Hc; simpl; try reflexivity.
  pose proof (walk_shrinks _ _ _ _ Hk Hc). apply IH; lia.
Qed.

Lemma chain_fuel (fuel : nat) :
  forall (fuel' : nat) (buf : bytes) (next : option Z),
    (length buf < fuel)%nat -> (length buf < fuel')%nat ->
    chain fuel buf next = chain fuel' buf next.
Proof.
  induction fuel as [|fuel IH]; intros fuel' buf next Hf Hf'; [lia|].
  destruct fuel' as [|fuel']; [lia|].
  simpl. destruct next as [k|]; [|reflexivity].
  case_bool_decide as Hin; [|reflexivity].
  destruct (ext_hdrs_cls !! k) as [cls|] eqn:Hk; [|reflexivity].
  destruct (cls buf) as [ext| |] eqn:Hc; simpl; try reflexivity.
  pose proof (walk_shrinks _ _ _ _ Hk Hc). f_equal. apply IH; lia.
Qed.

Lemma upper_terminates {U : Type} (protosw : gmap Z (bytes -> outcome U))
    (next : option Z) (buf : bytes) :
  (forall k cls b, protosw !! k = Some cls -> terminates (cls b)) ->
  terminates (IP6.upper protosw next buf).
Proof.
  intros Hreg. unfold IP6.upper.
  destruct next as [k|]; simpl; [|discriminate].
  destruct (protosw !! k) as [cls|] eqn:Hk; [|discriminate].
  specialize (Hreg _ _ buf Hk). unfold terminates in *.
  destruct (cls buf) as [o|e|]; [discriminate| |done].
  destruct e; discriminate.
Qed.

(** C10: the extension-header chain walk terminates on every buffer.  Every
    decoded header of a recognised kind has a computed length of at least
    8, so each iteration leaves strictly fewer bytes; a buffer shorter than
    the fixed portion of the next header makes its decoder raise NeedData;
    no decoder runs forever (the option scan included); the loop finishes
    within [length buf + 1] iterations whatever the buffer, and [unpack]
    never runs forever when the registry's decoders do not. *)
Theorem C10_chain_walk_terminates :
  (forall k cls buf ext,
      ext_hdrs_cls !! k = Some cls -> cls buf = Ok ext ->
      8 <= ext_length ext /\
      (length (slice buf (Some (ext_length ext)) None) < length buf)%nat) /\
  (forall k cls n buf,
      ext_hdrs_cls !! k = Some cls -> ext_hdrs_hdr_len !! k = Some n ->
      (length buf < n)%nat -> cls buf = Raise NeedData) /\
  (forall k cls buf, ext_hdrs_cls !! k = Some cls -> terminates (cls buf)) /\
  (forall fuel m buf next,
      (length buf < fuel)%nat -> terminates (walk fuel m buf next)) /\
  (forall (U : Type) (protosw : gmap Z (bytes -> outcome U)) (buf : bytes),
      (forall k cls b, protosw !! k = Some cls -> terminates (cls b)) ->
      terminates (IP6.unpack protosw buf)).
Proof.
  split; [|split; [|split; [|split]]].
  - intros k cls buf ext Hk Hc. split.
    + by eapply ext_length_ge_8.
    + by eapply walk_shrinks.
  - apply ext_short_buffer.
  - apply ext_cls_terminates.
  - intros fuel m buf next. apply walk_terminates.
  - intros U protosw buf Hreg. unfold IP6.unpack.
    apply bind_terminates.
    { unfold Packet.unpack. destruct (_ <? _); discriminate. }
    intros [hdr data] _. apply bind_terminates.
    { apply walk_terminates. lia. }
    intros [[m rest] next] _. apply bind_terminates; [|discriminate].
    by apply upper_terminates.
Qed.

Lemma Segment_protosw_terminates (k : Z) (cls : bytes -> outcome Segment.t)
    (b : bytes) :
  Segment.protosw !! k = Some cls -> terminates (cls b).
Proof.
  intros Hk. unfold Segment.protosw in Hk.
  lookup_cases Hk; unfold Segment.unpack; destruct (_ <? _); discriminate.
Defined.

Lemma C10_chain_walk_terminates_witness :
  ext_hdrs_cls !! 43 = Some (fun buf => let* h := IP6RoutingHeader.unpack buf in Ok (Routing h)) /\
  terminates (IP6.unpack Segment.protosw test_ip6_routing_header_s).
Proof.
  split; [reflexivity|].
  apply (proj2 (proj2 (proj2 (proj2 C10_chain_walk_terminates)))).
  exact Segment_protosw_terminates.
Defined.

Lemma walk_step (fuel : nat) (m : gmap Z ext_hdr) (k : Z)
    (cls : bytes -> outcome ext_hdr) (buf : bytes) (ext : ext_hdr) :
  ext_hdrs_cls !! k = Some cls -> cls buf = Ok ext ->
  walk (S fuel) m buf (Some k) =
  walk fuel (<[k := ext]> m) (drop (Z.to_nat (ext_length ext)) buf) (ext_nxt ext).
Proof.
  intros Hk Hc. simpl.
  rewrite bool_decide_eq_true_2 by (apply ext_hdrs_cls_dom; eauto).
  rewrite Hk, Hc. simpl.
  rewrite slice_from; [reflexivity|].
  pose proof (ext_length_ge_8 _ _ _ _ Hk Hc). lia.
Qed.

Lemma walk_done (fuel : nat) (m : gmap Z ext_hdr) (buf : bytes) :
  walk fuel m buf None = Ok (m, buf, None).
Proof. destruct fuel; reflexivity. Qed.

Lemma walk_terminal (fuel : nat) (m : gmap Z ext_hdr) (buf : bytes) (k : Z) :
  k ∉ ext_hdrs -> walk fuel m buf (Some k) = Ok (m, buf, Some k).
Proof.
  intros Hk. destruct fuel; simpl; by rewrite bool_decide_eq_false_2.
Qed.

(** The first byte of every header but ESP is its [nxt]. *)
Lemma ext_nxt_first_byte (k : Z) (cls : bytes -> outcome ext_hdr) (buf : bytes)
    (ext : ext_hdr) :
  ext_hdrs_cls !! k = Some cls -> cls buf = Ok ext -> k <> ip.IP_PROTO_ESP ->
  ext_nxt ext = Some (struct.unpack_B (take 1 buf)).
Proof.
  intros Hk Hc Hesp. unfold ext_hdrs_cls in Hk. lookup_cases Hk;
    apply bind_Ok in Hc as [h [Hu [= <-]]]; simpl; try done; f_equal.
  - by apply OptsHeader_unpack_Ok in Hu as (_ & ? & _).
  - by apply RoutingHeader_unpack_Ok in Hu as (_ & ? & _).
  - by apply FragmentHeader_unpack_Ok in Hu as (_ & ? & _).
  - by apply AHHeader_unpack_Ok in Hu as (_ & ? & _).
  - by apply OptsHeader_unpack_Ok in Hu as (_ & ? & _).
Qed.

(** An ESP header has no [nxt] and takes the whole buffer. *)
Lemma ext_ESP_whole_buffer (cls : bytes -> outcome ext_hdr) (buf : bytes)
    (ext : ext_hdr) :
  ext_hdrs_cls !! ip.IP_PROTO_ESP = Some cls -> cls buf = Ok ext ->
  ext_nxt ext = None /\ ext_length ext = blen buf.
Proof.
  intros Hk Hc.
  change (Some (fun buf => let* h := IP6ESPHeader.unpack buf in Ok (ESP h))
          = Some cls) in Hk.
  injection Hk as <-.
  apply bind_Ok in Hc as [h [Hu [= <-]]]. simpl. split; [done|].
  by apply ESPHeader_unpack_Ok in Hu as (_ & _ & ? & _).
Qed.

(** C3, as the code has it: a decoded header of the kinds Hop-by-Hop
    Options, Routing, Fragment, Authentication and Destination Options has a
    [nxt] field, the first byte of the header, and the walk records the
    header, moves past it and goes on with that value as its protocol id.
    An ESP header has no [nxt]: it takes the whole remaining buffer and the
    walk stops after it, with no protocol id and nothing left. *)
Theorem C3_walk_follows_nxt_except_ESP
    (k : Z) (cls : bytes -> outcome ext_hdr) (buf : bytes) (ext : ext_hdr)
    (fuel : nat) (m : gmap Z ext_hdr) :
  ext_hdrs_cls !! k = Some cls -> cls buf = Ok ext ->
  (k <> ip.IP_PROTO_ESP ->
     ext_nxt ext = Some (struct.unpack_B (take 1 buf)) /\
     walk (S fuel) m buf (Some k) =
     walk fuel (<[k := ext]> m) (drop (Z.to_nat (ext_length ext)) buf)
       (Some (struct.unpack_B (take 1 buf)))) /\
  (k = ip.IP_PROTO_ESP ->
     ext_nxt ext = None /\
     walk (S fuel) m buf (Some k) = Ok (<[k := ext]> m, [], None)).
Proof.
  intros Hk Hc. split.
  - intros Hesp. pose proof (ext_nxt_first_byte _ _ _ _ Hk Hc Hesp) as Hn.
    split; [exact Hn|]. rewrite <- Hn. by eapply walk_step.
  - intros ->. destruct (ext_ESP_whole_buffer _ _ _ Hk Hc) as [Hn Hl].
    split; [exact Hn|]. erewrite walk_step by eauto.
    rewrite Hn, Hl, walk_done. unfold blen. rewrite Nat2Z.id, drop_all.
    reflexivity.
Qed.

(** C3 fails as stated: the ESP header of [test_ip6_esp_header] is decoded
    by the walk, has no [nxt], and ends the chain. *)
Lemma C3_counterexample :
  exists cls ext,
    ext_hdrs_cls !! ip.IP_PROTO_ESP = Some cls /\
    cls test_ip6_esp_header_s = Ok ext /\
    ext_nxt ext = None /\
    walk (S (length test_ip6_esp_header_s)) ∅ test_ip6_esp_header_s
      (Some ip.IP_PROTO_ESP) = Ok ({[ip.IP_PROTO_ESP := ext]}, [], None).
Proof.
  do 2 eexists. split; [reflexivity|]. split; [vm_compute; reflexivity|].
  split; [reflexivity|]. vm_compute. reflexivity.
Qed.

Lemma C3_walk_follows_nxt_except_ESP_witness :
  let buf := drop 40 test_ip6_routing_header_s in
  exists cls ext,
    ext_hdrs_cls !! ip.IP_PROTO_ROUTING = Some cls /\
    cls buf = Ok ext /\
    ext_nxt ext = Some 6 /\
    walk 2 ∅ buf (Some ip.IP_PROTO_ROUTING) =
    walk 1 {[ip.IP_PROTO_ROUTING := ext]} (drop 40 buf) (Some 6).
Proof.
  intros buf.
  assert (Hk : ext_hdrs_cls !! ip.IP_PROTO_ROUTING =
               Some (fun buf => let* h := IP6RoutingHeader.unpack buf in
                                Ok (Routing h))) by reflexivity.
  eexists _, _. split; [exact Hk|].
  assert (Hc : (let* h := IP6RoutingHeader.unpack buf in Ok (Routing h)) =
               Ok (match IP6RoutingHeader.unpack buf with
                   | Ok h => Routing h
                   | _ => Fragment (IP6FragmentHeader.mk 0 0 0 0 [] 0)
                   end)) by (vm_compute; reflexivity).
  split; [exact Hc|].
  destruct (C3_walk_follows_nxt_except_ESP _ _ _ _ 1%nat ∅ Hk Hc) as [Hgo _].
  destruct Hgo as [Hn Hw]; [discriminate|].
  split; [rewrite Hn; vm_compute; reflexivity|].
  rewrite Hw. vm_compute. reflexivity.
Defined.

(** ** Decoding a packet *)

(** [unpack] on a buffer that holds the fixed header, with the header
    fields read off the buffer. *)
Lemma IP6_unpack_eq {U : Type} (protosw : gmap Z (bytes -> outcome U))
    (buf : bytes) :
  (40 <= length buf)%nat ->
  IP6.unpack protosw buf =
  (let plen := struct.unpack_H (take 2 (drop 4 buf)) in
   let nxt := struct.unpack_B (take 1 (drop 6 buf)) in
   let region := IP6.region plen (drop 40 buf) in
   let* (extension_hdrs, rest, next) :=
     walk (S (length region)) ∅ region (Some nxt) in
   let* data := IP6.upper protosw next rest in
   Ok (IP6.mk (struct.unpack_I (take 4 buf)) plen nxt
         (struct.unpack_B (take 1 (drop 7 buf)))
         (take 16 (drop 8 buf)) (take 16 (drop 24 buf))
         data extension_hdrs next)).
Proof.
  intros Hlen. unfold IP6.unpack, IP6.__hdr_len__.
  rewrite Packet_unpack_long by lia. simpl bind.
  rewrite !field_take by lia. rewrite drop_0. reflexivity.
Qed.

Lemma region_eq (plen : Z) (buf : bytes) :
  0 <= plen ->
  IP6.region plen (drop 40 buf) =
  if plen =? 0 then slice buf (Some 40) None
  else slice buf (Some 40) (Some (40 + plen)).
Proof.
  intros Hp. unfold IP6.region. destruct (plen =? 0).
  - by rewrite slice_from by lia.
  - rewrite slice_to, slice_range by lia.
    by replace (40 + plen - 40) with plen by lia.
Qed.

(** C8: the region that [unpack] hands to the chain walk is
    [buf[40:40+plen]] when [plen] is not zero, and all the bytes after the
    40-byte fixed header, [buf[40:]], when [plen] is zero; in that case it
    has [len(buf) - 40] bytes. *)
Theorem C8_working_payload_region {U : Type}
    (protosw : gmap Z (bytes -> outcome U)) (buf : bytes) :
  (40 <= length buf)%nat ->
  let plen := struct.unpack_H (take 2 (drop 4 buf)) in
  let nxt := struct.unpack_B (take 1 (drop 6 buf)) in
  let region :=
    if plen =? 0 then slice buf (Some 40) None
    else slice buf (Some 40) (Some (40 + plen)) in
  (plen = 0 -> region = drop 40 buf /\ blen region = blen buf - 40) /\
  IP6.unpack protosw buf =
  (let* (extension_hdrs, rest, next) :=
     walk (S (length region)) ∅ region (Some nxt) in
   let* data := IP6.upper protosw next rest in
   Ok (IP6.mk (struct.unpack_I (take 4 buf)) plen nxt
         (struct.unpack_B (take 1 (drop 7 buf)))
         (take 16 (drop 8 buf)) (take 16 (drop 24 buf))
         data extension_hdrs next)).
Proof.
  intros Hlen plen nxt region. split.
  - intros H0. subst region. rewrite H0. simpl (_ =? _).
    rewrite slice_from by lia. split; [reflexivity|].
    unfold blen. rewrite length_drop. lia.
  - rewrite IP6_unpack_eq by exact Hlen.
    pose proof (unpack_H_range (take 2 (drop 4 buf))) as Hr.
    cbv zeta. fold plen in Hr |- *. fold nxt.
    rewrite (region_eq plen buf) by lia. fold region. reflexivity.
Qed.

Lemma C8_working_payload_region_witness :
  let buf := test_ip6_fragment_header_ip in
  struct.unpack_H (take 2 (drop 4 buf)) = 16 /\
  IP6.unpack Segment.protosw buf =
  (let* (extension_hdrs, rest, next) := walk 17 ∅ (drop 40 buf) (Some 44) in
   let* data := IP6.upper Segment.protosw next rest in
   Ok (IP6.mk 0x60000000 16 44 0
         (take 16 (drop 8 buf)) (take 16 (drop 24 buf))
         data extension_hdrs next)).
Proof.
  intros buf. split; [reflexivity|].
  assert (Hlen : (40 <= length buf)%nat) by (vm_compute; lia).
  destruct (C8_working_payload_region Segment.protosw buf Hlen) as [_ ->].
  reflexivity.
Defined.

(** C9, as the code has it: when the chain walk completes and the
    registry has no decoder for the terminal protocol id, or the decoder
    fails on the remaining bytes with UnpackError (NeedData included) or
    with KeyError, [unpack] returns a packet whose [data] is the remaining
    bytes, with the headers and the protocol id the walk found.  When the
    decoder fails with any other exception, [unpack] raises it. *)
Theorem C9_upper_layer_failure_gives_raw_bytes {U : Type}
    (protosw : gmap Z (bytes -> outcome U)) (buf : bytes)
    (m : gmap Z ext_hdr) (rest : bytes) (next : option Z) :
  (40 <= length buf)%nat ->
  let plen := struct.unpack_H (take 2 (drop 4 buf)) in
  let nxt := struct.unpack_B (take 1 (drop 6 buf)) in
  let region := IP6.region plen (drop 40 buf) in
  walk (S (length region)) ∅ region (Some nxt) = Ok (m, rest, next) ->
  ((next ≫= (protosw !!.) = None \/
    exists cls e, next ≫= (protosw !!.) = Some cls /\ cls rest = Raise e /\
                  (is_UnpackError e = true \/ e = KeyError)) ->
   exists pkt, IP6.unpack protosw buf = Ok pkt /\
               IP6.data pkt = Raw rest /\
               IP6.extension_hdrs pkt = m /\
               IP6.p pkt = next) /\
  (forall cls e,
     next ≫= (protosw !!.) = Some cls -> cls rest = Raise e ->
     is_UnpackError e = false -> e <> KeyError ->
     IP6.unpack protosw buf = Raise e).
Proof.
  intros Hlen plen nxt region Hw.
  rewrite IP6_unpack_eq by exact Hlen. cbv zeta. fold plen nxt region.
  rewrite Hw. simpl bind. split.
  - intros Hup.
    assert (Hraw : IP6.upper protosw next rest = Ok (Raw rest)).
    { unfold IP6.upper. destruct Hup as [-> | (cls & e & -> & -> & He)]; [done|].
      destruct He as [He | ->]; [|done]. by destruct e. }
    rewrite Hraw. simpl. eauto.
  - intros cls e Hcls Hc He Hk.
    assert (Hraise : IP6.upper protosw next rest = Raise e).
    { unfold IP6.upper. rewrite Hcls, Hc. by destruct e. }
    by rewrite Hraise.
Qed.

(** C9 fails as stated: the inner packet of [encapsulated_short_option]
    has an Options header whose scan raises IndexError.  The chain walk of
    the outer packet completes with protocol id 41, the registry has a
    decoder for it, the decoder fails on the remaining bytes, and the
    error reaches the caller: no packet is returned. *)
Lemma C9_counterexample :
  let buf := encapsulated_short_option in
  let region := IP6.region 43 (drop 40 buf) in
  walk (S (length region)) ∅ region (Some 41) = Ok (∅, drop 40 buf, Some 41) /\
  encapsulation_protosw !! 41 = Some (IP6.unpack Segment.protosw) /\
  IP6.unpack Segment.protosw (drop 40 buf) = Raise IndexError /\
  IP6.unpack encapsulation_protosw buf = Raise IndexError.
Proof.
  intros buf region. split; [vm_compute; reflexivity|].
  split; [reflexivity|]. split; vm_compute; reflexivity.
Qed.

Lemma C9_upper_layer_failure_gives_raw_bytes_witness :
  let buf := take 50 test_ipg_s in
  (exists pkt, IP6.unpack Segment.protosw buf = Ok pkt /\
               IP6.data pkt = Raw (drop 40 buf) /\
               IP6.extension_hdrs pkt = ∅ /\
               IP6.p pkt = Some 6) /\
  IP6.unpack encapsulation_protosw encapsulated_short_option = Raise IndexError.
Proof.
  intros buf. split.
  - apply (C9_upper_layer_failure_gives_raw_bytes Segment.protosw buf ∅
             (drop 40 buf) (Some 6)).
    + vm_compute. lia.
    + vm_compute. reflexivity.
    + right. exists (Segment.unpack 16 20), NeedData.
      split; [reflexivity|]. split; [vm_compute; reflexivity|].
      left. reflexivity.
  - apply (C9_upper_layer_failure_gives_raw_bytes encapsulation_protosw
             encapsulated_short_option ∅ (drop 40 encapsulated_short_option)
             (Some 41)) with (cls := IP6.unpack Segment.protosw).
    + vm_compute. lia.
    + vm_compute. reflexivity.
    + reflexivity.
    + vm_compute. reflexivity.
    + reflexivity.
    + discriminate.
Defined.

(** ** The option scan and the declared region *)

Lemma getitem_take (data : bytes) (r : nat) (i : Z) (t : byte) :
  0 <= i -> getitem (take r data) i = Some t ->
  getitem data i = Some t /\ (Z.to_nat i < r)%nat.
Proof.
  intros Hi. rewrite !getitem_nonneg by lia. intros Ht.
  destruct (decide (Z.to_nat i < r)%nat) as [Hlt | Hge].
  - by rewrite lookup_take_lt in Ht.
  - rewrite lookup_take_ge in Ht by lia. discriminate.
Qed.

(** A value that the region holds in full is the same slice of the whole
    buffer. *)
Lemma slice_take_exact (data : bytes) (r : nat) (a l : Z) :
  0 <= a -> 0 <= l ->
  blen (slice (take r data) (Some a) (Some (a + l))) = l ->
  slice data (Some a) (Some (a + l)) = slice (take r data) (Some a) (Some (a + l)).
Proof.
  intros Ha Hl. unfold blen. rewrite !slice_range by lia.
  replace (a + l - a) with l by lia.
  rewrite !take_drop_commute, take_take, !length_drop, !length_take.
  intros Hlen.
  destruct (decide (l = 0)) as [-> | Hne].
  - simpl. rewrite !Nat.add_0_r.
    rewrite !drop_ge; [done| |]; rewrite length_take; lia.
  - replace ((Z.to_nat a + Z.to_nat l) `min` r)%nat
      with (Z.to_nat a + Z.to_nat l)%nat by lia.
    reflexivity.
Qed.

Module RegionFacts.
Import IP6OptsHeader.

(** The value of an emitted option never has more than [opt_length]
    bytes. *)
Lemma scan_data_le (fuel : nat) :
  forall (data : bytes) (length index : Z) (options res : list Opt.t),
    0 <= index ->
    Forall (fun o => blen (Opt.data o) <= Opt.opt_length o) options ->
    scan fuel data length index options = Ok res ->
    Forall (fun o => blen (Opt.data o) <= Opt.opt_length o) res.
Proof.
  induction fuel as [|fuel IH]; intros data L i acc res Hi Hacc; simpl.
  - destruct (i <? L - 2); [discriminate|]. by intros [= <-].
  - destruct (i <? L - 2); [|by intros [= <-]].
    destruct (getitem data i) as [t|]; [|discriminate].
    destruct (compat_ord t =? 0); [apply IH; [lia|done]|].
    destruct (getitem data (i + 1)) as [l|]; [|discriminate].
    pose proof (compat_ord_range l) as Hl.
    destruct (compat_ord t =? 1); [apply IH; [lia|done]|].
    apply IH; [lia|]. apply Forall_app. split; [done|].
    apply Forall_singleton. simpl. unfold blen.
    rewrite slice_range by lia. rewrite length_take. lia.
Qed.

(** When the scan of the region alone succeeds and every value it emits
    is whole, the scan of the buffer gives the same options: it has read
    and emitted bytes of the region only. *)
Lemma scan_region (fuel : nat) :
  forall (data : bytes) (length index : Z) (options res : list Opt.t),
    0 <= index ->
    scan fuel (take (Z.to_nat (length - 2)) data) length index options = Ok res ->
    Forall (fun o => blen (Opt.data o) = Opt.opt_length o) res ->
    scan fuel data length index options = Ok res.
Proof.
  induction fuel as [|fuel IH]; intros data L i acc res Hi; simpl.
  - destruct (i <? L - 2); [discriminate|]. done.
  - destruct (i <? L - 2); [|done].
    destruct (getitem (take _ data) i) as [t|] eqn:Ht; [|discriminate].
    apply getitem_take in Ht as [-> _]; [|lia].
    destruct (compat_ord t =? 0); [apply IH; lia|].
    destruct (getitem (take _ data) (i + 1)) as [l|] eqn:Hl; [|discriminate].
    apply getitem_take in Hl as [-> _]; [|lia].
    pose proof (compat_ord_range l) as Hr.
    destruct (compat_ord t =? 1); [apply IH; lia|].
    intros Hs Hall.
    destruct (ScanFacts.scan_prefix _ _ _ _ _ _ Hs) as [more ->].
    assert (Hwhole :
      blen (slice (take (Z.to_nat (L - 2)) data) (Some (i + 2))
              (Some (i + 2 + compat_ord l))) = compat_ord l).
    { rewrite !Forall_app, Forall_singleton in Hall.
      destruct Hall as [[_ Hall] _]. exact Hall. }
    rewrite (slice_take_exact data (Z.to_nat (L - 2)) (i + 2) (compat_ord l))
      by (lia || done).
    apply IH; [lia|done|done].
Qed.

End RegionFacts.

(** C5, as the code has it.  The scan stops as soon as the position has
    reached or passed the end of the declared region, and always
    terminates.  It reads the buffer, not the region: when every option is
    framed inside the region (the scan of the region alone succeeds with
    whole values) the scan of the buffer gives the same options, so it has
    read and emitted bytes of the region only.  At a position inside the
    region, a PAD1 byte moves the scan on by one, a PADN option by its
    length and two, and any other option is recorded with as many bytes of
    value as its length byte says or as the buffer still holds, whichever is
    fewer: a value that the buffer cannot fill is cut short, and a last
    option that runs to the end of the region or past it ends the scan
    without an error.  The scan raises IndexError when the type byte at a
    position inside the region, or the length byte of an option that is
    not PAD1, lies beyond the end of the buffer, and it raises nothing
    else. *)
Theorem C5_option_scan_and_region (data : bytes) (hdr_length : Z) :
  (forall fuel index options,
      hdr_length - 2 <= index ->
      IP6OptsHeader.scan fuel data hdr_length index options = Ok options) /\
  terminates (IP6OptsHeader.scan (Z.to_nat (hdr_length - 2)) data hdr_length 0 []) /\
  (forall fuel res,
      IP6OptsHeader.scan fuel (take (Z.to_nat (hdr_length - 2)) data)
        hdr_length 0 [] = Ok res ->
      Forall (fun o => blen (Opt.data o) = Opt.opt_length o) res ->
      IP6OptsHeader.scan fuel data hdr_length 0 [] = Ok res) /\
  (forall fuel res,
      IP6OptsHeader.scan fuel data hdr_length 0 [] = Ok res ->
      Forall (fun o => blen (Opt.data o) <= Opt.opt_length o) res) /\
  (forall fuel e,
      IP6OptsHeader.scan fuel data hdr_length 0 [] = Raise e -> e = IndexError) /\
  (forall fuel index options,
      0 <= index < hdr_length - 2 -> blen data <= index ->
      IP6OptsHeader.scan (S fuel) data hdr_length index options = Raise IndexError) /\
  (forall fuel index options t,
      0 <= index < hdr_length - 2 ->
      getitem data index = Some t -> compat_ord t <> 0 ->
      blen data <= index + 1 ->
      IP6OptsHeader.scan (S fuel) data hdr_length index options = Raise IndexError) /\
  (forall fuel index options t,
      0 <= index < hdr_length - 2 ->
      getitem data index = Some t -> compat_ord t = 0 ->
      IP6OptsHeader.scan (S fuel) data hdr_length index options =
      IP6OptsHeader.scan fuel data hdr_length (index + 1) options) /\
  (forall fuel index options t l,
      0 <= index < hdr_length - 2 ->
      getitem data index = Some t -> getitem data (index + 1) = Some l ->
      compat_ord t = 1 ->
      IP6OptsHeader.scan (S fuel) data hdr_length index options =
      IP6OptsHeader.scan fuel data hdr_length (index + (compat_ord l + 2)) options) /\
  (forall fuel index options t l,
      0 <= index < hdr_length - 2 ->
      getitem data index = Some t -> getitem data (index + 1) = Some l ->
      compat_ord t <> 0 -> compat_ord t <> 1 ->
      let value := take (Z.to_nat (compat_ord l)) (drop (Z.to_nat (index + 2)) data) in
      let opt := Opt.mk (compat_ord t) (compat_ord l) value in
      blen value = Z.min (compat_ord l) (blen data - (index + 2)) /\
      IP6OptsHeader.scan (S fuel) data hdr_length index options =
      IP6OptsHeader.scan fuel data hdr_length (index + (compat_ord l + 2))
        (options ++ [opt]) /\
      (hdr_length - 2 <= index + (compat_ord l + 2) ->
       IP6OptsHeader.scan (S fuel) data hdr_length index options =
       Ok (options ++ [opt]))).
Proof.
  split; [|split; [|split; [|split; [|split]]]].
  - intros fuel index options. apply ScanFacts.scan_stop.
  - apply ScanFacts.scan_terminates. lia.
  - intros fuel res. by apply RegionFacts.scan_region.
  - intros fuel res. by apply RegionFacts.scan_data_le.
  - intros fuel e. apply ScanFacts.scan_raises.
  - assert (Hmiss : forall i, 0 <= i -> blen data <= i -> getitem data i = None).
    { intros i Hi Hlen. rewrite getitem_nonneg by lia.
      apply lookup_ge_None. unfold blen in Hlen. lia. }
    split; [|split; [|split; [|split]]].
    + intros fuel index options Hi Hlen. cbn [IP6OptsHeader.scan].
      replace (index <? hdr_length - 2) with true by lia.
      by rewrite Hmiss by lia.
    + intros fuel index options t Hi Ht Hne Hlen. cbn [IP6OptsHeader.scan].
      replace (index <? hdr_length - 2) with true by lia.
      rewrite Ht. cbv zeta. apply Z.eqb_neq in Hne. rewrite Hne.
      by rewrite Hmiss by lia.
    + intros fuel index options t Hi Ht Hz. cbn [IP6OptsHeader.scan].
      replace (index <? hdr_length - 2) with true by lia.
      rewrite Ht. cbv zeta. by rewrite Hz.
    + intros fuel index options t l Hi Ht Hl H1. cbn [IP6OptsHeader.scan].
      replace (index <? hdr_length - 2) with true by lia.
      rewrite Ht, Hl. cbv zeta. by rewrite H1.
    + intros fuel index options t l Hi Ht Hl H0 H1 value opt.
      pose proof (compat_ord_range l) as Hr.
      assert (Hlen : index + 2 <= blen data).
      { rewrite getitem_nonneg in Hl by lia.
        apply lookup_lt_Some in Hl. unfold blen. lia. }
      assert (Hstep :
        IP6OptsHeader.scan (S fuel) data hdr_length index options =
        IP6OptsHeader.scan fuel data hdr_length (index + (compat_ord l + 2))
          (options ++ [opt])).
      { cbn [IP6OptsHeader.scan].
        replace (index <? hdr_length - 2) with true by lia.
        rewrite Ht, Hl. cbv zeta.
        apply Z.eqb_neq in H0, H1. rewrite H0, H1.
        rewrite slice_range by lia.
        by replace (index + 2 + compat_ord l - (index + 2)) with (compat_ord l) by lia. }
      split; [|split; [exact Hstep|]].
      * subst value. unfold blen in *. rewrite length_take, length_drop. lia.
      * intros Hend. rewrite Hstep. by apply ScanFacts.scan_stop.
Qed.

(** C5 fails as stated: the option of [overlong_option_s] is emitted with
    10 bytes of value, 6 of them from beyond the 8-byte header; and when
    the buffer ends with the header, the same option is emitted with the 4
    bytes that are there.  Neither scan fails. *)
Lemma C5_counterexample :
  (exists h,
      IP6OptsHeader.unpack overlong_option_s = Ok h /\
      IP6OptsHeader.length h = 8 /\
      IP6OptsHeader.options h =
      [Opt.mk 5 10 [xaa; xbb; xcc; xdd; x01; x02; x03; x04; x05; x06]]) /\
  (exists h,
      IP6OptsHeader.unpack (take 8 overlong_option_s) = Ok h /\
      IP6OptsHeader.length h = 8 /\
      IP6OptsHeader.options h = [Opt.mk 5 10 [xaa; xbb; xcc; xdd]]).
Proof.
  split; eexists; (split; [vm_compute; reflexivity|]); split; reflexivity.
Qed.

Lemma C5_option_scan_and_region_witness :
  (let data := drop 2 test_ip6_options_header_s ++ overlong_option_s in
   exists res,
     IP6OptsHeader.scan 38 data 40 0 [] = Ok res /\
     Opt.type <$> res = [201; 194; 5]) /\
  IP6OptsHeader.scan 6 [] 8 0 [] = Raise IndexError /\
  IP6OptsHeader.scan 6 [x05] 8 0 [] = Raise IndexError /\
  IP6OptsHeader.scan 6 [x05; x0a; xaa; xbb; xcc; xdd] 8 0 [] =
    Ok [Opt.mk 5 10 [xaa; xbb; xcc; xdd]].
Proof.
  split; [|split; [|split]].
  - intros data.
    destruct (C5_option_scan_and_region data 40) as (_ & _ & Hregion & _).
    eexists. split.
    + apply Hregion; [vm_compute; reflexivity|].
      repeat constructor.
    + reflexivity.
  - destruct (C5_option_scan_and_region [] 8) as (_ & _ & _ & _ & _ & Htype & _).
    apply Htype; [vm_compute; split; [discriminate|reflexivity] |].
    vm_compute. discriminate.
  - destruct (C5_option_scan_and_region [x05] 8)
      as (_ & _ & _ & _ & _ & _ & Hlength & _).
    apply (Hlength 5%nat 0 [] x05).
    + vm_compute. split; [discriminate|reflexivity].
    + reflexivity.
    + vm_compute. discriminate.
    + vm_compute. discriminate.
  - destruct (C5_option_scan_and_region [x05; x0a; xaa; xbb; xcc; xdd] 8)
      as (_ & _ & _ & _ & _ & _ & _ & _ & _ & Hopt).
    destruct (Hopt 5%nat 0 [] x05 x0a) as (_ & _ & Hlast).
    + vm_compute. split; [discriminate|reflexivity].
    + reflexivity.
    + reflexivity.
    + vm_compute. discriminate.
    + vm_compute. discriminate.
    + apply Hlast. vm_compute. discriminate.
Defined.

(** ** Serializing a packet whose payload has no checksum field *)

(** Claim C4 (the code does not do what the claim says).  [__bytes__]
    reads [self.data.sum] in the condition of its [if], before the [try]
    that guards only the assignment.  So for a packet whose payload
    protocol is TCP (6), UDP (17) or ICMPv6 (58) and whose payload has no
    [sum] attribute, raw bytes among them, serializing raises
    AttributeError; no bytes are returned. *)
Theorem C4_no_checksum_field_raises {U : Type} `{Payload U}
    (pkt : IP6.t) (q : Z) :
  IP6.p pkt = Some q ->
  q = 6 \/ q = 17 \/ q = 58 ->
  ((exists b, IP6.data pkt = Raw b) \/
   (exists o, IP6.data pkt = Obj o /\ pl_sum o = None)) ->
  IP6.to_bytes pkt = Raise AttributeError.
Proof.
  intros Hp Hq Hdata. unfold IP6.to_bytes, IP6.fixup. rewrite Hp.
  assert (Hsel : (q =? 6) || (q =? 17) || (q =? 58) = true).
  { destruct Hq as [-> | [-> | ->]]; reflexivity. }
  rewrite Hsel.
  destruct Hdata as [[b ->] | (o & -> & Ho)]; simpl; [|rewrite Ho]; reflexivity.
Qed.

(** The first 50 bytes of the packet of [test_ipg]: the ten bytes after
    the fixed header are too few for a TCP header, so the payload stays
    raw bytes, and serializing the decoded packet raises. *)
Lemma C4_no_checksum_field_raises_witness :
  exists pkt, IP6.unpack Segment.protosw (take 50 test_ipg_s) = Ok pkt /\
              IP6.p pkt = Some 6 /\
              IP6.data pkt = Raw (drop 40 (take 50 test_ipg_s)) /\
              IP6.to_bytes pkt = Raise AttributeError.
Proof.
  eexists. split; [vm_compute; reflexivity|].
  split; [reflexivity|]. split; [reflexivity|].
  apply (C4_no_checksum_field_raises _ 6).
  - reflexivity.
  - left. reflexivity.
  - left. eexists. reflexivity.
Defined.

(** ** The checksum fix-up *)

Lemma pseudo_header_Ok (src dst : bytes) (nxt n : Z) :
  length src = 16%nat -> length dst = 16%nat ->
  0 <= nxt < 256 -> 0 <= n < 65536 ->
  IP6.pseudo_header src dst nxt n =
    Ok (src ++ dst ++ [x00; chr nxt] ++ [chr (Z.shiftr n 8); chr n]).
Proof.
  intros Hs Hd Hnxt Hn. unfold IP6.pseudo_header, struct.pack_B, struct.pack_H, struct.fits.
  replace ((0 <=? nxt) && (nxt <? 2 ^ 8)) with true by (symmetry; apply andb_true_iff; lia).
  replace ((0 <=? n) && (n <? 2 ^ 16)) with true by (symmetry; apply andb_true_iff; lia).
  simpl. rewrite !pack_16s_id by assumption. reflexivity.
Qed.

(** What the fix-up writes: the checksum over the pseudo-header and the
    payload bytes, with the [nxt] field of the fixed header as the
    protocol id of the pseudo-header. *)
Lemma fixup_writes_nxt_checksum {U : Type} `{Payload U}
    (pkt : IP6.t) (q : Z) (o : U) :
  IP6.p pkt = Some q ->
  q = 6 \/ q = 17 \/ q = 58 ->
  IP6.data pkt = Obj o -> pl_sum o = Some 0 ->
  length (IP6.src pkt) = 16%nat -> length (IP6.dst pkt) = 16%nat ->
  0 <= IP6.nxt pkt < 256 -> blen (pl_bytes o) < 65536 ->
  IP6.fixup pkt =
    Ok (IP6.set_data
          (IP6.data_set_sum
             (spec_fixup_checksum (IP6.src pkt) (IP6.dst pkt) (IP6.nxt pkt)
                (pl_bytes o)) (Obj o)) pkt).
Proof.
  intros Hp Hq Hdata Hsum Hs Hd Hnxt Hlen. unfold IP6.fixup. rewrite Hp.
  assert (Hsel : (q =? 6) || (q =? 17) || (q =? 58) = true).
  { destruct Hq as [-> | [-> | ->]]; reflexivity. }
  rewrite Hsel, Hdata. simpl. rewrite Hsum. simpl.
  pose proof (blen_nonneg (pl_bytes o)).
  rewrite pseudo_header_Ok by (assumption || lia). reflexivity.
Qed.

(** Claim C1 (the code does not do what the claim says).  [__bytes__]
    packs [self.nxt], the next-header field of the fixed header, into the
    pseudo-header, where the claim has the upper-layer protocol id
    [self.p].  The two differ as soon as the packet has an extension
    header.  The packet of [test_ip6_routing_header] with its TCP checksum
    zeroed decodes with [nxt] = 43 and [p] = 6; serializing it writes
    the checksum computed with protocol id 43 (0xa501), not the one the
    claim describes, computed with 6 (0xa526), and the bytes returned
    differ from the test's packet. *)
Theorem C1_fixup_packs_nxt_not_p :
  exists pkt pkt' seg seg' out,
    IP6.unpack Segment.protosw test_ip6_routing_header_zero_sum = Ok pkt /\
    IP6.nxt pkt = 43 /\ IP6.p pkt = Some 6 /\
    IP6.data pkt = Obj seg /\ Segment.sum seg = 0 /\
    IP6.to_bytes pkt = Ok (pkt', out) /\
    IP6.data pkt' = Obj seg' /\
    Segment.sum seg' =
      spec_fixup_checksum (IP6.src pkt) (IP6.dst pkt) 43 (Segment.to_bytes seg) /\
    Segment.sum seg' = 0xa501 /\
    spec_fixup_checksum (IP6.src pkt) (IP6.dst pkt) 6 (Segment.to_bytes seg) = 0xa526 /\
    out <> test_ip6_routing_header_s.
Proof.
  do 5 eexists.
  split; [vm_compute; reflexivity|].
  do 4 (split; [reflexivity|]).
  split; [vm_compute; reflexivity|].
  split; [reflexivity|].
  do 3 (split; [vm_compute; reflexivity|]).
  vm_compute. discriminate.
Qed.

(** ** Sub-fields of the packed words *)

(** Claim C6 (the code does not do what the claim says, by two slips of a
    constant).  The [m_flag] setter masks the word with [~0xfffe], which
    keeps the old flag bit and clears the fragment offset, where the
    [frag_off] setter beside it clears its own bits only.  The [sl_bits]
    setter masks 20 bits ([0xfffff]) where its getter reads 24
    ([0xffffff]).  On the Fragment header of [test_ip6_fragment_header]
    (offset 8191, flag 1), setting the flag to 0 reads back 1 and leaves
    offset 0; on the Routing header of [test_ip6_routing_header], setting
    the bitmap to the 24-bit value 0xabcdef reads back 0x0bcdef. *)
Theorem C6_m_flag_and_sl_bits_setters :
  (exists h, IP6FragmentHeader.unpack test_ip6_fragment_header_s = Ok h /\
     IP6FragmentHeader.frag_off h = 8191 /\
     IP6FragmentHeader.m_flag h = 1 /\
     IP6FragmentHeader.m_flag (IP6FragmentHeader.set_m_flag 0 h) = 1 /\
     IP6FragmentHeader.frag_off (IP6FragmentHeader.set_m_flag 0 h) = 0 /\
     IP6FragmentHeader.frag_off (IP6FragmentHeader.set_m_flag 1 h) = 0 /\
     IP6FragmentHeader.m_flag (IP6FragmentHeader.set_frag_off 5 h) = 1 /\
     IP6FragmentHeader.frag_off (IP6FragmentHeader.set_frag_off 5 h) = 5) /\
  (exists r, IP6RoutingHeader.unpack (drop 40 test_ip6_routing_header_s) = Ok r /\
     IP6RoutingHeader.rsvd_sl_bits r = 0 /\
     IP6RoutingHeader.sl_bits (IP6RoutingHeader.set_sl_bits 0xabcdef r) = 0x0bcdef).
Proof.
  split; eexists; (split; [vm_compute; reflexivity|]); repeat split.
Qed.

(** Claim C7 (the code does not do what the claim says).  Only the
    [flow] setter masks its argument ([v & 0xfffff]); the [v] and [fc]
    setters shift it in unmasked.  On the packet of [test_ipg] (version 6):
    setting [v] to 16 makes the word 2^32, which the 32-bit field of the
    header rejects, so packing the header and serializing the packet
    raise PackError; setting [fc] to 0x1ff turns the version into 7.
    Setting [flow] to the 21-bit value 0x1fffff is masked to 0xfffff and
    leaves the version alone. *)
Theorem C7_v_and_fc_setters_do_not_mask :
  exists pkt, IP6.unpack Segment.protosw test_ipg_s = Ok pkt /\
    IP6.v pkt = 6 /\ IP6.fc pkt = 0 /\
    IP6._v_fc_flow (IP6.set_v 16 pkt) = 2 ^ 32 /\
    IP6.pack_hdr (IP6.set_v 16 pkt) = Raise PackError /\
    IP6.to_bytes (IP6.set_v 16 pkt) = Raise PackError /\
    IP6.v (IP6.set_fc 0x1ff pkt) = 7 /\
    IP6.flow (IP6.set_flow 0x1fffff pkt) = 0xfffff /\
    IP6.v (IP6.set_flow 0x1fffff pkt) = 6.
Proof.
  eexists. split; [vm_compute; reflexivity|].
  repeat split.
Qed.

(** ** Serializing a decoded packet *)














(** * Further properties of the module *)

(** ** Bit fields, for values that fit *)

Lemma testbit_high (p n i : Z) : 0 <= n < 2 ^ p -> p <= i -> Z.testbit n i = false.
Proof.
  intros Hn Hi. destruct (Z.eq_dec n 0) as [->|Hne]; [apply Z.bits_0|].
  apply Z.bits_above_log2; [lia|].
  assert (Z.log2 n < p); [|lia].
  apply Z.log2_lt_pow2; lia.
Qed.

(** Equality of two words built with masks and shifts, bit by bit. *)
Ltac bits_cases :=
  repeat match goal with
         | |- context [Z.ltb ?a ?b] => destruct (Z.ltb_spec a b)
         | |- context [Z.leb ?a ?b] => destruct (Z.leb_spec a b)
         end.

Ltac bits_same_index :=
  repeat match goal with
         | |- context [Z.testbit ?n ?j1] =>
             match goal with
             | |- context [Z.testbit n ?j2] =>
                 lazymatch j1 with j2 => fail | _ => replace j1 with j2 by lia end
             end
         end.

Ltac bits :=
  apply Z.bits_inj'; intros ?i ?Hi;
  repeat first
    [ rewrite Z.land_spec | rewrite Z.lor_spec | rewrite Z.lnot_spec by lia
    | rewrite Z.shiftr_spec by lia | rewrite Z.shiftl_spec by lia
    | rewrite Z.testbit_ones by lia ];
  bits_cases; try lia;
  repeat match goal with
         | |- context [Z.testbit ?n ?j] => rewrite (Z.testbit_neg_r n j) by lia
         end;
  repeat match goal with
         | H : 0 <= ?n < 2 ^ ?p |- context [Z.testbit ?n ?j] =>
             rewrite (testbit_high p n j H) by lia
         end;
  bits_same_index;
  repeat match goal with |- context [Z.testbit ?n ?j] => destruct (Z.testbit n j) end;
  try reflexivity.

Lemma land_ones_range (r n : Z) : 0 <= n -> Z.land r (Z.ones n) = r -> 0 <= r < 2 ^ n.
Proof.
  intros Hn Hr. rewrite Z.land_ones in Hr by lia. rewrite <- Hr.
  apply Z.mod_pos_bound. lia.
Qed.

Lemma unpack_I_range (l : bytes) : 0 <= struct.unpack_I l < 2 ^ 32.
Proof.
  destruct l as [|a [|c [|d [|e [|? ?]]]]]; try (simpl; lia).
  pose proof (compat_ord_range a). pose proof (compat_ord_range c).
  pose proof (compat_ord_range d). pose proof (compat_ord_range e).
  rewrite unpack_I_eq. lia.
Qed.

(** Property X1.  On a 32-bit word, setting the version to a 4-bit value
    reads back that value, leaves the traffic class and the flow label as
    they were, and keeps the word a 32-bit value. *)
Theorem IP6_set_v_fits {U : Type} (pkt : @IP6.t U) (x : Z) :
  0 <= IP6._v_fc_flow pkt < 2 ^ 32 -> 0 <= x < 2 ^ 4 ->
  IP6.v (IP6.set_v x pkt) = x /\
  IP6.fc (IP6.set_v x pkt) = IP6.fc pkt /\
  IP6.flow (IP6.set_v x pkt) = IP6.flow pkt /\
  0 <= IP6._v_fc_flow (IP6.set_v x pkt) < 2 ^ 32.
Proof.
  intros Hw Hx. unfold IP6.v, IP6.fc, IP6.flow, IP6.set_v. simpl.
  set (w := IP6._v_fc_flow pkt) in *.
  change 0xf0000000 with (Z.shiftl (Z.ones 4) 28).
  change 0xff with (Z.ones 8). change 0xfffff with (Z.ones 20).
  split; [bits|]. split; [bits|]. split; [bits|].
  apply (land_ones_range _ 32); [lia|]. bits.
Qed.

Lemma IP6_set_v_fits_witness :
  exists pkt, IP6.unpack Segment.protosw test_ipg_s = Ok pkt /\
    IP6.v (IP6.set_v 4 pkt) = 4 /\
    IP6.fc (IP6.set_v 4 pkt) = IP6.fc pkt /\
    IP6.flow (IP6.set_v 4 pkt) = IP6.flow pkt /\
    0 <= IP6._v_fc_flow (IP6.set_v 4 pkt) < 2 ^ 32.
Proof.
  eexists. split; [vm_compute; reflexivity|].
  apply (IP6_set_v_fits _ 4); vm_compute; (split; [discriminate|reflexivity]).
Defined.

(** Property X2.  On a 32-bit word, setting the traffic class to an 8-bit
    value reads back that value, leaves the version and the flow label as
    they were, and keeps the word a 32-bit value. *)
Theorem IP6_set_fc_fits {U : Type} (pkt : @IP6.t U) (x : Z) :
  0 <= IP6._v_fc_flow pkt < 2 ^ 32 -> 0 <= x < 2 ^ 8 ->
  IP6.fc (IP6.set_fc x pkt) = x /\
  IP6.v (IP6.set_fc x pkt) = IP6.v pkt /\
  IP6.flow (IP6.set_fc x pkt) = IP6.flow pkt /\
  0 <= IP6._v_fc_flow (IP6.set_fc x pkt) < 2 ^ 32.
Proof.
  intros Hw Hx. unfold IP6.v, IP6.fc, IP6.flow, IP6.set_fc. simpl.
  set (w := IP6._v_fc_flow pkt) in *.
  change 0xff00000 with (Z.shiftl (Z.ones 8) 20).
  change 0xff with (Z.ones 8). change 0xfffff with (Z.ones 20).
  split; [bits|]. split; [bits|]. split; [bits|].
  apply (land_ones_range _ 32); [lia|]. bits.
Qed.

Lemma IP6_set_fc_fits_witness :
  exists pkt, IP6.unpack Segment.protosw test_ipg_s = Ok pkt /\
    IP6.fc (IP6.set_fc 0xb8 pkt) = 0xb8 /\
    IP6.v (IP6.set_fc 0xb8 pkt) = IP6.v pkt /\
    IP6.flow (IP6.set_fc 0xb8 pkt) = IP6.flow pkt /\
    0 <= IP6._v_fc_flow (IP6.set_fc 0xb8 pkt) < 2 ^ 32.
Proof.
  eexists. split; [vm_compute; reflexivity|].
  apply (IP6_set_fc_fits _ 0xb8); vm_compute; (split; [discriminate|reflexivity]).
Defined.

(** Property X3.  The flow label setter masks its argument: on a 32-bit
    word, setting the flow label to any integer reads back its low 20
    bits, leaves the version and the traffic class as they were, and keeps
    the word a 32-bit value. *)
Theorem IP6_set_flow_masks {U : Type} (pkt : @IP6.t U) (x : Z) :
  0 <= IP6._v_fc_flow pkt < 2 ^ 32 ->
  IP6.flow (IP6.set_flow x pkt) = x `mod` 2 ^ 20 /\
  IP6.v (IP6.set_flow x pkt) = IP6.v pkt /\
  IP6.fc (IP6.set_flow x pkt) = IP6.fc pkt /\
  0 <= IP6._v_fc_flow (IP6.set_flow x pkt) < 2 ^ 32.
Proof.
  intros Hw. unfold IP6.v, IP6.fc, IP6.flow, IP6.set_flow. simpl.
  set (w := IP6._v_fc_flow pkt) in *.
  rewrite <- (Z.land_ones x 20) by lia.
  change 0xff with (Z.ones 8). change 0xfffff with (Z.ones 20).
  split; [bits|]. split; [bits|]. split; [bits|].
  apply (land_ones_range _ 32); [lia|]. bits.
Qed.

Lemma IP6_set_flow_masks_witness :
  exists pkt, IP6.unpack Segment.protosw test_ipg_s = Ok pkt /\
    IP6.flow (IP6.set_flow (-1) pkt) = (-1) `mod` 2 ^ 20 /\
    IP6.v (IP6.set_flow (-1) pkt) = IP6.v pkt /\
    IP6.fc (IP6.set_flow (-1) pkt) = IP6.fc pkt /\
    0 <= IP6._v_fc_flow (IP6.set_flow (-1) pkt) < 2 ^ 32.
Proof.
  eexists. split; [vm_compute; reflexivity|].
  apply (IP6_set_flow_masks _ (-1)); vm_compute; (split; [discriminate|reflexivity]).
Defined.

(** Property X4.  On a 16-bit word, setting the fragment offset to a
    13-bit value reads back that value, leaves the more-fragments flag as
    it was, and keeps the word a 16-bit value. *)
Theorem FragmentHeader_set_frag_off_fits (h : IP6FragmentHeader.t) (x : Z) :
  0 <= IP6FragmentHeader.frag_off_resv_m h < 2 ^ 16 -> 0 <= x < 2 ^ 13 ->
  IP6FragmentHeader.frag_off (IP6FragmentHeader.set_frag_off x h) = x /\
  IP6FragmentHeader.m_flag (IP6FragmentHeader.set_frag_off x h) =
    IP6FragmentHeader.m_flag h /\
  0 <= IP6FragmentHeader.frag_off_resv_m (IP6FragmentHeader.set_frag_off x h) < 2 ^ 16.
Proof.
  intros Hw Hx.
  unfold IP6FragmentHeader.frag_off, IP6FragmentHeader.m_flag,
    IP6FragmentHeader.set_frag_off. simpl.
  set (w := IP6FragmentHeader.frag_off_resv_m h) in *.
  change 0xfff8 with (Z.shiftl (Z.ones 13) 3). change 1 with (Z.ones 1) at 1 2.
  split; [bits|]. split; [bits|].
  apply (land_ones_range _ 16); [lia|]. bits.
Qed.

Lemma FragmentHeader_set_frag_off_fits_witness :
  exists h, IP6FragmentHeader.unpack test_ip6_fragment_header_s = Ok h /\
    IP6FragmentHeader.frag_off (IP6FragmentHeader.set_frag_off 185 h) = 185 /\
    IP6FragmentHeader.m_flag (IP6FragmentHeader.set_frag_off 185 h) =
      IP6FragmentHeader.m_flag h /\
    0 <= IP6FragmentHeader.frag_off_resv_m (IP6FragmentHeader.set_frag_off 185 h) < 2 ^ 16.
Proof.
  eexists. split; [vm_compute; reflexivity|].
  apply (FragmentHeader_set_frag_off_fits _ 185);
    vm_compute; (split; [discriminate|reflexivity]).
Defined.

(** ** Extension headers on their own *)

(** Property X5.  An Options header (Hop-by-Hop or Destination) decoded
    from a buffer serializes back to the whole buffer, whatever its [len]
    field says: [data] is everything after the two fixed bytes. *)
Theorem OptsHeader_bytes_of_decoded (buf : bytes) (h : IP6OptsHeader.t) :
  IP6OptsHeader.unpack buf = Ok h ->
  IP6OptsHeader.to_bytes h = Ok buf.
Proof.
  intros Hu. pose proof (OptsHeader_pack_unpack _ _ Hu) as Hp.
  apply OptsHeader_unpack_Ok in Hu as (_ & _ & _ & Hd & _).
  unfold IP6OptsHeader.to_bytes, Packet.to_bytes. rewrite Hp, Hd. simpl.
  by rewrite take_drop.
Qed.

Lemma OptsHeader_bytes_of_decoded_witness :
  exists h, IP6OptsHeader.unpack test_ip6_options_header_s = Ok h /\
            length (IP6OptsHeader.options h) = 3%nat /\
            IP6OptsHeader.to_bytes h = Ok test_ip6_options_header_s.
Proof.
  eexists. split; [vm_compute; reflexivity|]. split; [reflexivity|].
  apply OptsHeader_bytes_of_decoded. vm_compute. reflexivity.
Defined.

(** Property X6.  An Authentication header decoded from a buffer
    serializes back to the whole buffer.  When [len] is at least 1 and
    the buffer holds the whole header, the twelve fixed bytes followed by
    [auth_data] are exactly the [length] bytes of the header. *)
Theorem AHHeader_bytes_and_auth_data (buf : bytes) (h : IP6AHHeader.t) :
  IP6AHHeader.unpack buf = Ok h ->
  IP6AHHeader.to_bytes h = Ok buf /\
  (1 <= IP6AHHeader.len h ->
   take 12 buf ++ IP6AHHeader.auth_data h =
     take (Z.to_nat (IP6AHHeader.length h)) buf).
Proof.
  intros Hu. pose proof Hu as Hu'.
  apply AHHeader_unpack_Ok in Hu' as (Hl & _ & Hr & Hd & Hlen & Hp).
  split.
  - unfold IP6AHHeader.to_bytes, Packet.to_bytes. rewrite Hp, Hd. simpl.
    by rewrite take_drop.
  - intros Hpos. rewrite Hlen.
    unfold IP6AHHeader.unpack in Hu.
    apply bind_Ok in Hu as [[hdr data] [Hpk Hu]].
    apply Packet_unpack_Ok in Hpk as (_ & _ & -> & _).
    injection Hu as <-. simpl in *.
    rewrite slice_to by lia.
    replace (Z.to_nat ((struct.unpack_B (Packet.field 1 1 hdr) + 2) * 4))
      with (12 + Z.to_nat ((struct.unpack_B (Packet.field 1 1 hdr) - 1) * 4))%nat
      by lia.
    apply take_take_drop.
Qed.

Lemma AHHeader_bytes_and_auth_data_witness :
  exists h, IP6AHHeader.unpack test_ip6_ah_header_s = Ok h /\
    IP6AHHeader.to_bytes h = Ok test_ip6_ah_header_s /\
    (1 <= IP6AHHeader.len h ->
     take 12 test_ip6_ah_header_s ++ IP6AHHeader.auth_data h =
       take (Z.to_nat (IP6AHHeader.length h)) test_ip6_ah_header_s).
Proof.
  eexists. split; [vm_compute; reflexivity|].
  apply AHHeader_bytes_and_auth_data. vm_compute. reflexivity.
Defined.

(** Property X7.  An Authentication header whose [len] is 0 takes the
    slice [data[:-4]]: [auth_data] is [data] without its last four
    bytes, not an empty string. *)
Theorem AHHeader_auth_data_len_0 (buf : bytes) (h : IP6AHHeader.t) :
  IP6AHHeader.unpack buf = Ok h -> IP6AHHeader.len h = 0 ->
  IP6AHHeader.auth_data h = take (length buf - 16) (drop 12 buf).
Proof.
  unfold IP6AHHeader.unpack. intros Hu Hz.
  apply bind_Ok in Hu as [[hdr data] [Hpk Hu]].
  apply Packet_unpack_Ok in Hpk as (Hlen & _ & -> & _).
  injection Hu as <-. simpl in *. rewrite Hz.
  unfold slice, norm_index, blen. simpl. rewrite drop_0, length_drop.
  unfold IP6AHHeader.__hdr_len__ in *. f_equal. lia.
Qed.

Lemma AHHeader_auth_data_len_0_witness :
  let buf := [x3b; x00; x00; x00; x02; x02; x02; x02; x01; x01; x01; x01;
              x78; x79; x7a; x7b; x7c; x7d] in
  exists h, IP6AHHeader.unpack buf = Ok h /\
            IP6AHHeader.auth_data h = take (length buf - 16) (drop 12 buf) /\
            IP6AHHeader.auth_data h = [x78; x79].
Proof.
  intros buf. eexists. split; [vm_compute; reflexivity|].
  split; [|reflexivity].
  apply AHHeader_auth_data_len_0; vm_compute; reflexivity.
Defined.

(** Property X8.  An ESP header takes the whole buffer: its [length] is
    the length of the buffer, and it serializes back to the buffer. *)
Theorem ESPHeader_bytes_of_decoded (buf : bytes) (h : IP6ESPHeader.t) :
  IP6ESPHeader.unpack buf = Ok h ->
  IP6ESPHeader.length h = blen buf /\ IP6ESPHeader.to_bytes h = Ok buf.
Proof.
  intros Hu. apply ESPHeader_unpack_Ok in Hu as (_ & Hd & Hlen & Hp).
  split; [exact Hlen|].
  unfold IP6ESPHeader.to_bytes, Packet.to_bytes. rewrite Hp, Hd. simpl.
  by rewrite take_drop.
Qed.

Lemma ESPHeader_bytes_of_decoded_witness :
  exists h, IP6ESPHeader.unpack test_ip6_esp_header_s = Ok h /\
            IP6ESPHeader.length h = 68 /\
            IP6ESPHeader.to_bytes h = Ok test_ip6_esp_header_s.
Proof.
  eexists. split; [vm_compute; reflexivity|].
  apply (ESPHeader_bytes_of_decoded test_ip6_esp_header_s).
  vm_compute. reflexivity.
Defined.

(** Property X9.  A Fragment header decoded from a buffer is eight bytes
    long and serializes back to the first eight bytes of the buffer; its
    fragment offset is a 13-bit value and its more-fragments flag is 0 or
    1. *)
Theorem FragmentHeader_bytes_of_decoded (buf : bytes) (h : IP6FragmentHeader.t) :
  IP6FragmentHeader.unpack buf = Ok h ->
  IP6FragmentHeader.to_bytes h = Ok (take 8 buf) /\
  0 <= IP6FragmentHeader.frag_off h < 2 ^ 13 /\
  0 <= IP6FragmentHeader.m_flag h <= 1.
Proof.
  intros Hu. pose proof Hu as Hu'.
  apply FragmentHeader_unpack_Ok in Hu' as (_ & _ & Hd & _ & Hp).
  split.
  { unfold IP6FragmentHeader.to_bytes, Packet.to_bytes. rewrite Hp, Hd. simpl.
    by rewrite app_nil_r. }
  unfold IP6FragmentHeader.unpack in Hu.
  apply bind_Ok in Hu as [[hdr data] [_ Hu]]. injection Hu as <-.
  unfold IP6FragmentHeader.frag_off, IP6FragmentHeader.m_flag. simpl.
  pose proof (unpack_H_range (Packet.field 2 2 hdr)) as Hr.
  set (w := struct.unpack_H (Packet.field 2 2 hdr)) in *.
  rewrite Z.shiftr_div_pow2 by lia.
  change (Z.land w 1) with (Z.land w (Z.ones 1)). rewrite Z.land_ones by lia.
  split; [split; [apply Z.div_pos; lia | apply Z.div_lt_upper_bound; lia]|].
  pose proof (Z.mod_pos_bound w (2 ^ 1)). lia.
Qed.

Lemma FragmentHeader_bytes_of_decoded_witness :
  exists h, IP6FragmentHeader.unpack test_ip6_fragment_header_s = Ok h /\
    IP6FragmentHeader.to_bytes h = Ok (take 8 test_ip6_fragment_header_s) /\
    0 <= IP6FragmentHeader.frag_off h < 2 ^ 13 /\
    0 <= IP6FragmentHeader.m_flag h <= 1.
Proof.
  eexists. split; [vm_compute; reflexivity|].
  apply FragmentHeader_bytes_of_decoded. vm_compute. reflexivity.
Defined.

Lemma address_slices_concat (d : bytes) (n : nat) :
  concat ((fun i => slice d (Some (i * 16)) (Some (i * 16 + 16)))
            <$> seqZ 0 (Z.of_nat n)) = take (16 * n) d.
Proof.
  induction n as [|n IH].
  - by rewrite Nat.mul_0_r, take_0.
  - rewrite seqZ_S, fmap_app, concat_app, IH.
    cbn [fmap list_fmap concat]. rewrite app_nil_r, Z.add_0_l.
    rewrite slice_range by lia.
    replace (Z.to_nat (Z.of_nat n * 16 + 16 - Z.of_nat n * 16)) with 16%nat by lia.
    replace (Z.to_nat (Z.of_nat n * 16)) with (16 * n)%nat by lia.
    rewrite take_take_drop. f_equal. lia.
Qed.

(** Property X10.  A Routing header decoded from a buffer has [len // 2]
    addresses, which cut [data] into consecutive pieces; when the buffer
    holds all of them each address is 16 bytes long.  The header
    serializes back to its eight fixed bytes and these addresses. *)
Theorem RoutingHeader_addresses (buf : bytes) (h : IP6RoutingHeader.t) :
  IP6RoutingHeader.unpack buf = Ok h ->
  let n := IP6RoutingHeader.len h `div` 2 in
  length (IP6RoutingHeader.addresses h) = Z.to_nat n /\
  concat (IP6RoutingHeader.addresses h) = IP6RoutingHeader.data h /\
  (8 + n * 16 <= blen buf ->
   Forall (fun a => length a = 16%nat) (IP6RoutingHeader.addresses h)) /\
  IP6RoutingHeader.to_bytes h = Ok (take (Z.to_nat (8 + n * 16)) buf).
Proof.
  intros Hu n. pose proof Hu as Hu'.
  apply RoutingHeader_unpack_Ok in Hu' as (Hl & _ & Hr & Hd & _ & Hp).
  fold n in Hd.
  assert (Hn : 0 <= n) by (apply Z.div_pos; lia).
  assert (Hdata : IP6RoutingHeader.data h = take (Z.to_nat (n * 16)) (drop 8 buf)).
  { rewrite Hd, slice_range by lia. do 2 f_equal. lia. }
  assert (Haddr : IP6RoutingHeader.addresses h =
            (fun i => slice (IP6RoutingHeader.data h) (Some (i * 16)) (Some (i * 16 + 16)))
              <$> seqZ 0 n).
  { unfold IP6RoutingHeader.unpack in Hu.
    apply bind_Ok in Hu as [[hdr data] [_ Hu]]. by injection Hu as <-. }
  split; [by rewrite Haddr, length_fmap, length_seqZ|].
  split.
  { rewrite Haddr. rewrite <- (Z2Nat.id n) at 1 by lia.
    rewrite address_slices_concat. apply take_ge.
    rewrite Hdata, length_take. lia. }
  split.
  { intros Hlong. rewrite Haddr. apply Forall_fmap, Forall_seqZ.
    intros i Hi. simpl. rewrite slice_range by lia.
    rewrite Hdata, length_take, length_drop, length_take, length_drop.
    unfold blen in Hlong. lia. }
  unfold IP6RoutingHeader.to_bytes, Packet.to_bytes. rewrite Hp, Hdata. simpl.
  replace (Z.to_nat (8 + n * 16)) with (8 + Z.to_nat (n * 16))%nat by lia.
  by rewrite take_take_drop.
Qed.

Lemma RoutingHeader_addresses_witness :
  let buf := drop 40 test_ip6_routing_header_s in
  exists h, IP6RoutingHeader.unpack buf = Ok h /\
    let n := IP6RoutingHeader.len h `div` 2 in
    length (IP6RoutingHeader.addresses h) = Z.to_nat n /\
    concat (IP6RoutingHeader.addresses h) = IP6RoutingHeader.data h /\
    (8 + n * 16 <= blen buf ->
     Forall (fun a => length a = 16%nat) (IP6RoutingHeader.addresses h)) /\
    IP6RoutingHeader.to_bytes h = Ok (take (Z.to_nat (8 + n * 16)) buf).
Proof.
  intros buf. eexists. split; [vm_compute; reflexivity|].
  apply (RoutingHeader_addresses buf). vm_compute. reflexivity.
Defined.

(** ** The options of an Options header *)

Module OptionFacts.

Lemma scan_Forall (P : Opt.t -> Prop) (data : bytes) (length : Z) :
  (forall t l d, 2 <= t < 256 -> 0 <= l < 256 -> P (Opt.mk t l d)) ->
  forall fuel index options res,
    IP6OptsHeader.scan fuel data length index options = Ok res ->
    Forall P options -> Forall P res.
Proof.
  intros HP. induction fuel as [|fuel IH]; intros index options res Hs Hall;
    simpl in Hs; destruct (index <? length - 2); try discriminate;
    try (by injection Hs as <-).
  destruct (getitem data index) as [t|]; [|discriminate].
  pose proof (compat_ord_range t) as Ht.
  destruct (compat_ord t =? 0) eqn:H0; [by eapply IH|].
  destruct (getitem data (index + 1)) as [l|]; [|discriminate].
  pose proof (compat_ord_range l) as Hl.
  destruct (compat_ord t =? 1) eqn:H1; [by eapply IH|].
  eapply IH; [exact Hs|]. apply Forall_app. split; [exact Hall|].
  apply Forall_singleton, HP; lia.
Qed.

Lemma scan_count (data : bytes) (hlen : Z) :
  forall fuel index options res,
    IP6OptsHeader.scan fuel data hlen index options = Ok res ->
    2 * (Z.of_nat (length res) - Z.of_nat (length options))
      <= Z.max 0 (hlen - 1 - index).
Proof.
  induction fuel as [|fuel IH]; intros index options res Hs;
    simpl in Hs; destruct (index <? hlen - 2) eqn:Hlt; try discriminate;
    try (injection Hs as <-; lia).
  destruct (getitem data index) as [t|]; [|discriminate].
  destruct (compat_ord t =? 0) eqn:H0; [apply IH in Hs; lia|].
  destruct (getitem data (index + 1)) as [l|]; [|discriminate].
  pose proof (compat_ord_range l) as Hl.
  destruct (compat_ord t =? 1) eqn:H1; apply IH in Hs;
    rewrite ?length_app in Hs; simpl in Hs; lia.
Qed.

End OptionFacts.

(** Property X11.  The options that an Options header records are never
    padding: the type of each is at least 2 (PAD1 is type 0, PADN type
    1), and type and length are byte values. *)
Theorem OptsHeader_options_are_not_padding (buf : bytes) (h : IP6OptsHeader.t) :
  IP6OptsHeader.unpack buf = Ok h ->
  Forall (fun o => 2 <= Opt.type o < 256 /\ 0 <= Opt.opt_length o < 256)
    (IP6OptsHeader.options h).
Proof.
  unfold IP6OptsHeader.unpack. intros Hu.
  apply bind_Ok in Hu as [[hdr data] [_ Hu]].
  apply bind_Ok in Hu as [opts [Hs Hu]]. injection Hu as <-. simpl.
  eapply OptionFacts.scan_Forall; [|exact Hs|constructor].
  intros t l d Ht Hl. simpl. lia.
Qed.

Lemma OptsHeader_options_are_not_padding_witness :
  exists h, IP6OptsHeader.unpack test_ip6_options_header_s = Ok h /\
    Opt.type <$> IP6OptsHeader.options h = [201; 194; 5] /\
    Forall (fun o => 2 <= Opt.type o < 256 /\ 0 <= Opt.opt_length o < 256)
      (IP6OptsHeader.options h).
Proof.
  eexists. split; [vm_compute; reflexivity|]. split; [reflexivity|].
  apply (OptsHeader_options_are_not_padding test_ip6_options_header_s).
  vm_compute. reflexivity.
Defined.

(** Property X12.  An Options header records fewer than [4 * (len + 1)]
    options, so never more than 1023: each one takes at least two bytes
    of the [length - 2] bytes that the scan covers. *)
Theorem OptsHeader_options_count (buf : bytes) (h : IP6OptsHeader.t) :
  IP6OptsHeader.unpack buf = Ok h ->
  Z.of_nat (length (IP6OptsHeader.options h)) < 4 * (IP6OptsHeader.len h + 1) /\
  (length (IP6OptsHeader.options h) <= 1023)%nat.
Proof.
  intros Hu. pose proof (OptsHeader_len_range _ _ Hu) as Hr. revert Hu Hr.
  unfold IP6OptsHeader.unpack. intros Hu.
  apply bind_Ok in Hu as [[hdr data] [_ Hu]].
  apply bind_Ok in Hu as [opts [Hs Hu]]. injection Hu as <-. simpl. intros Hr.
  apply OptionFacts.scan_count in Hs. simpl in Hs. lia.
Qed.

Lemma OptsHeader_options_count_witness :
  exists h, IP6OptsHeader.unpack test_ip6_options_header_s = Ok h /\
    Z.of_nat (length (IP6OptsHeader.options h)) < 4 * (IP6OptsHeader.len h + 1) /\
    (length (IP6OptsHeader.options h) <= 1023)%nat.
Proof.
  eexists. split; [vm_compute; reflexivity|].
  apply (OptsHeader_options_count test_ip6_options_header_s).
  vm_compute. reflexivity.
Defined.

(** ** Decoding a packet *)

Lemma take_drop_take {A} (a b n : nat) (l : list A) :
  (b + a <= n)%nat -> take a (drop b (take n l)) = take a (drop b l).
Proof.
  intros Hle. rewrite !take_drop_commute, take_take.
  by replace ((b + a) `min` n)%nat with (b + a)%nat by lia.
Qed.

(** Property X13.  When the payload length field is not zero, decoding
    does not look at the bytes that follow the fixed header and the
    [plen] bytes of payload: cutting them off changes nothing. *)
Theorem IP6_unpack_ignores_trailing {U : Type}
    (protosw : gmap Z (bytes -> outcome U)) (buf : bytes) :
  (40 <= length buf)%nat ->
  let plen := struct.unpack_H (take 2 (drop 4 buf)) in
  plen <> 0 ->
  IP6.unpack protosw (take (40 + Z.to_nat plen) buf) = IP6.unpack protosw buf.
Proof.
  intros Hlen plen Hne.
  pose proof (unpack_H_range (take 2 (drop 4 buf))) as Hr. fold plen in Hr.
  rewrite (IP6_unpack_eq protosw buf) by exact Hlen.
  rewrite IP6_unpack_eq by (rewrite length_take; lia).
  rewrite !take_drop_take by lia.
  rewrite (take_take _ 4), Nat.min_l by lia.
  cbv zeta. fold plen.
  replace (IP6.region plen (drop 40 (take (40 + Z.to_nat plen) buf)))
    with (IP6.region plen (drop 40 buf)); [reflexivity|].
  unfold IP6.region. destruct (plen =? 0) eqn:Hz; [apply Z.eqb_eq in Hz; lia|].
  rewrite !slice_to by lia.
  rewrite <- take_drop_commute, take_take. f_equal. lia.
Qed.

Lemma IP6_unpack_ignores_trailing_witness :
  IP6.unpack Segment.protosw
    (take (40 + Z.to_nat (struct.unpack_H (take 2 (drop 4 test_ipg_trailing))))
       test_ipg_trailing) =
  IP6.unpack Segment.protosw test_ipg_trailing.
Proof.
  apply (IP6_unpack_ignores_trailing Segment.protosw test_ipg_trailing).
  - vm_compute. lia.
  - vm_compute. discriminate.
Defined.

Module WalkFacts.

Lemma walk_keys (fuel : nat) :
  forall (m : gmap Z ext_hdr) (buf : bytes) (next : option Z)
         (m' : gmap Z ext_hdr) (rest : bytes) (next' : option Z),
    walk fuel m buf next = Ok (m', rest, next') ->
    (forall k, is_Some (m' !! k) -> is_Some (m !! k) \/ k ∈ ext_hdrs) /\
    (forall q, next' = Some q -> q ∉ ext_hdrs) /\
    (next' = None -> next = None \/
       (rest = [] /\ exists h, m' !! ip.IP_PROTO_ESP = Some (ESP h))).
Proof.
  induction fuel as [|fuel IH]; intros m buf next m' rest next' Hw; simpl in Hw.
  - destruct next as [k|]; [case_bool_decide as Hin; [discriminate|]|];
      injection Hw as <- <- <-;
      (split; [by left|]); (split; [|by left]); congruence.
  - destruct next as [k|]; [case_bool_decide as Hin|];
      try (injection Hw as <- <- <-;
           (split; [by left|]); (split; [|by left]); congruence).
    destruct (ext_hdrs_cls !! k) as [cls|] eqn:Hk; [|discriminate].
    apply bind_Ok in Hw as [ext [Hc Hw]].
    destruct (IH _ _ _ _ _ _ Hw) as (Hkeys & Hq & Hnone).
    split; [|split; [exact Hq|]].
    + intros k' Hk'. destruct (Hkeys k' Hk') as [Hs | Hs]; [|by right].
      destruct (decide (k = k')) as [<- | Hne]; [by right|].
      left. by rewrite lookup_insert_ne in Hs.
    + intros Hn. right. destruct (Hnone Hn) as [Hext | Hesp]; [|exact Hesp].
      destruct ext as [h|h|h|h|h|h]; try discriminate Hext.
      assert (k = ip.IP_PROTO_ESP) as ->.
      { unfold ext_hdrs_cls in Hk. lookup_cases Hk;
          apply bind_Ok in Hc as [h' [_ Hc]]; try discriminate Hc; reflexivity. }
      rewrite Hext in Hw. rewrite walk_done in Hw. injection Hw as <- <-.
      split; [|exists h; by rewrite lookup_insert_eq].
      destruct (ext_ESP_whole_buffer _ _ _ Hk Hc) as [_ Hlen]. simpl in Hlen.
      rewrite Hlen, slice_from by apply blen_nonneg.
      unfold blen. rewrite Nat2Z.id. apply drop_all.
Qed.

End WalkFacts.

(** Property X14.  In a decoded packet every key of [extension_hdrs] is
    one of the six extension header ids, and the payload protocol [p] is
    never one of them.  [p] stays unset only after an ESP header, and
    then the payload is the empty byte string. *)
Theorem IP6_unpack_extension_ids {U : Type}
    (protosw : gmap Z (bytes -> outcome U)) (buf : bytes) (pkt : IP6.t) :
  IP6.unpack protosw buf = Ok pkt ->
  (forall k, is_Some (IP6.extension_hdrs pkt !! k) -> k ∈ ext_hdrs) /\
  (forall q, IP6.p pkt = Some q -> q ∉ ext_hdrs) /\
  (IP6.p pkt = None ->
   IP6.data pkt = Raw [] /\
   exists h, IP6.extension_hdrs pkt !! ip.IP_PROTO_ESP = Some (ESP h)).
Proof.
  unfold IP6.unpack. intros Hu.
  apply bind_Ok in Hu as [[hdr data] [_ Hu]].
  apply bind_Ok in Hu as [[[m rest] next] [Hw Hu]].
  apply bind_Ok in Hu as [d [Hd Hu]]. injection Hu as <-. simpl.
  apply WalkFacts.walk_keys in Hw as (Hkeys & Hq & Hnone).
  split; [|split; [exact Hq|]].
  - intros k Hk. destruct (Hkeys k Hk) as [Hs | Hs]; [|exact Hs].
    rewrite lookup_empty in Hs. by destruct Hs.
  - intros ->. destruct (Hnone eq_refl) as [? | [-> Hesp]]; [discriminate|].
    split; [|exact Hesp]. simpl in Hd. by injection Hd as <-.
Qed.

Lemma IP6_unpack_extension_ids_witness :
  exists pkt, IP6.unpack Segment.protosw test_ip6_routing_header_s = Ok pkt /\
    (forall k, is_Some (IP6.extension_hdrs pkt !! k) -> k ∈ ext_hdrs) /\
    (forall q, IP6.p pkt = Some q -> q ∉ ext_hdrs) /\
    (IP6.p pkt = None ->
     IP6.data pkt = Raw [] /\
     exists h, IP6.extension_hdrs pkt !! ip.IP_PROTO_ESP = Some (ESP h)).
Proof.
  eexists. split; [vm_compute; reflexivity|].
  apply (IP6_unpack_extension_ids Segment.protosw test_ip6_routing_header_s).
  vm_compute. reflexivity.
Defined.

Lemma chain_length_ge (c : list (Z * ext_hdr)) :
  Forall (fun ke => 8 <= ext_length ke.2) c ->
  8 * Z.of_nat (length c) <= chain_length c.
Proof.
  induction 1 as [|ke c Hke _ IH]; simpl; [lia|].
  unfold chain_length in *. simpl. lia.
Qed.

Lemma chain_lengths_ge_8 (fuel : nat) :
  forall (buf : bytes) (next : option Z),
    Forall (fun ke => 8 <= ext_length ke.2) (chain fuel buf next).
Proof.
  induction fuel as [|fuel IH]; intros buf next; simpl;
    (destruct next as [k|]; [case_bool_decide|]); try constructor.
  destruct (ext_hdrs_cls !! k) as [cls|] eqn:Hk; [|constructor].
  destruct (cls buf) as [ext| |] eqn:Hc; constructor; [|apply IH].
  simpl. by eapply ext_length_ge_8.
Qed.

(** Property X15.  What the chain walk leaves: [extension_hdrs] holds
    the headers of the chain by id, a later header replacing an earlier
    one of the same id, and the remaining buffer is the buffer without
    its first bytes, as many as the [length] attributes of the headers
    add up to, which is at least eight for each header. *)
Theorem walk_records_and_consumes (fuel : nat) :
  forall (m : gmap Z ext_hdr) (buf : bytes) (next : option Z)
         (m' : gmap Z ext_hdr) (rest : bytes) (next' : option Z),
    walk fuel m buf next = Ok (m', rest, next') ->
    let c := chain fuel buf next in
    m' = foldl (fun acc ke => <[ke.1 := ke.2]> acc) m c /\
    rest = drop (Z.to_nat (chain_length c)) buf /\
    8 * Z.of_nat (length c) <= chain_length c.
Proof.
  induction fuel as [|fuel IH]; intros m buf next m' rest next' Hw c; subst c.
  - simpl in *. destruct next as [k|]; [case_bool_decide; [discriminate|]|];
      injection Hw as <- <- <-; repeat split; simpl; lia.
  - split; [|split]; [| |apply chain_length_ge, chain_lengths_ge_8].
    all: simpl in *; (destruct next as [k|]; [case_bool_decide as Hin|]);
      try (injection Hw as <- <- <-; reflexivity).
    all: destruct (ext_hdrs_cls !! k) as [cls|] eqn:Hk; [|discriminate].
    all: apply bind_Ok in Hw as [ext [Hc Hw]]; rewrite Hc.
    all: destruct (IH _ _ _ _ _ _ Hw) as (Hm & Hrest & Hlen).
    + exact Hm.
    + pose proof (ext_length_ge_8 _ _ _ _ Hk Hc).
      rewrite slice_from in Hrest, Hlen |- * by lia.
      rewrite Hrest, drop_drop.
      unfold chain_length in *. simpl. f_equal. lia.
Qed.

Lemma walk_records_and_consumes_witness :
  let buf := drop 40 test_ip6_routing_header_s in
  exists m' rest next',
    walk 61 ∅ buf (Some 43) = Ok (m', rest, next') /\
    chain_length (chain 61 buf (Some 43)) = 40 /\
    m' = foldl (fun acc ke => <[ke.1 := ke.2]> acc) ∅ (chain 61 buf (Some 43)) /\
    rest = drop (Z.to_nat (chain_length (chain 61 buf (Some 43)))) buf /\
    8 * Z.of_nat (length (chain 61 buf (Some 43)))
      <= chain_length (chain 61 buf (Some 43)).
Proof.
  intros buf. do 3 eexists. split; [vm_compute; reflexivity|].
  split; [vm_compute; reflexivity|].
  eapply (walk_records_and_consumes 61 ∅ buf (Some 43)).
  vm_compute. reflexivity.
Defined.

(** ** Serializing the headers *)

Lemma headers_loop_listing (ids : list Z) :
  forall (m : gmap Z ext_hdr) (acc : bytes),
    IP6.headers_loop ids m acc =
    let* r := chain_bytes (omap (fun k => pair k <$> m !! k) ids) in
    Ok (acc ++ r).
Proof.
  induction ids as [|k ids IH]; intros m acc; simpl.
  - by rewrite app_nil_r.
  - destruct (m !! k) as [ext|]; simpl; [|apply IH].
    destruct (ext_bytes ext) as [b|e|]; simpl; [|reflexivity..].
    rewrite IH.
    destruct (chain_bytes _) as [r|e|]; simpl; [|reflexivity..].
    by rewrite app_assoc.
Qed.

Lemma headers_loop_other_id (ids : list Z) :
  forall (m : gmap Z ext_hdr) (acc : bytes) (k : Z) (ext : ext_hdr),
    k ∉ ids ->
    IP6.headers_loop ids (<[k := ext]> m) acc = IP6.headers_loop ids m acc.
Proof.
  induction ids as [|k' ids IH]; intros m acc k ext Hk; simpl; [reflexivity|].
  apply not_elem_of_cons in Hk as [Hne Hk].
  rewrite lookup_insert_ne by exact Hne.
  destruct (m !! k') as [ext'|]; [|by apply IH].
  destruct (ext_bytes ext'); simpl; [by apply IH|reflexivity..].
Qed.

(** Property X16.  [headers_str] emits the headers stored under the six
    extension header ids, in the order of [ext_hdrs] whatever order they
    were stored in, and nothing else: a header stored under any other key
    is not emitted. *)
Theorem headers_str_emits_canonical_listing {U : Type} (pkt : @IP6.t U) :
  IP6.headers_str pkt =
    chain_bytes
      (omap (fun k => pair k <$> IP6.extension_hdrs pkt !! k) ext_hdrs) /\
  (forall (pkt' : @IP6.t U) k ext,
     k ∉ ext_hdrs ->
     IP6.extension_hdrs pkt' = <[k := ext]> (IP6.extension_hdrs pkt) ->
     IP6.headers_str pkt' = IP6.headers_str pkt).
Proof.
  split.
  - unfold IP6.headers_str. rewrite headers_loop_listing.
    by destruct (chain_bytes _).
  - intros pkt' k ext Hk Hm. unfold IP6.headers_str. rewrite Hm.
    by apply headers_loop_other_id.
Qed.

Lemma headers_str_emits_canonical_listing_witness :
  exists pkt : @IP6.t Segment.t,
    IP6.unpack Segment.protosw test_ip6_routing_header_s = Ok pkt /\
    IP6.headers_str pkt = Ok (take 40 (drop 40 test_ip6_routing_header_s)) /\
    (forall (pkt' : @IP6.t Segment.t) k ext,
       k ∉ ext_hdrs ->
       IP6.extension_hdrs pkt' = <[k := ext]> (IP6.extension_hdrs pkt) ->
       IP6.headers_str pkt' = IP6.headers_str pkt).
Proof.
  eexists. split; [vm_compute; reflexivity|].
  split; [vm_compute; reflexivity|].
  apply headers_str_emits_canonical_listing.
Defined.

(** Property X17.  Packing the fixed header gives 40 bytes when the four
    integer fields fit their formats (32, 16, 8 and 8 bits), whatever the
    lengths of the addresses, and raises PackError when one does not. *)
Theorem IP6_pack_hdr_fits_or_PackError {U : Type} (pkt : @IP6.t U) :
  (0 <= IP6._v_fc_flow pkt < 2 ^ 32 /\ 0 <= IP6.plen pkt < 2 ^ 16 /\
   0 <= IP6.nxt pkt < 2 ^ 8 /\ 0 <= IP6.hlim pkt < 2 ^ 8 ->
   exists h, IP6.pack_hdr pkt = Ok h /\ length h = 40%nat) /\
  (~ (0 <= IP6._v_fc_flow pkt < 2 ^ 32 /\ 0 <= IP6.plen pkt < 2 ^ 16 /\
      0 <= IP6.nxt pkt < 2 ^ 8 /\ 0 <= IP6.hlim pkt < 2 ^ 8) ->
   IP6.pack_hdr pkt = Raise PackError).
Proof.
  unfold IP6.pack_hdr, struct.pack_I, struct.pack_H, struct.pack_B, struct.fits.
  assert (H16 : forall b : bytes, length (struct.pack_16s b) = 16%nat).
  { intros b. unfold struct.pack_16s.
    rewrite length_take, length_app, length_replicate. lia. }
  split.
  - intros (Hw & Hp & Hn & Hh).
    replace ((0 <=? IP6._v_fc_flow pkt) && (IP6._v_fc_flow pkt <? 2 ^ 32))
      with true by (symmetry; apply andb_true_iff; lia).
    replace ((0 <=? IP6.plen pkt) && (IP6.plen pkt <? 2 ^ 16))
      with true by (symmetry; apply andb_true_iff; lia).
    replace ((0 <=? IP6.nxt pkt) && (IP6.nxt pkt <? 2 ^ 8))
      with true by (symmetry; apply andb_true_iff; lia).
    replace ((0 <=? IP6.hlim pkt) && (IP6.hlim pkt <? 2 ^ 8))
      with true by (symmetry; apply andb_true_iff; lia).
    simpl. eexists. split; [reflexivity|].
    simpl. rewrite length_app, !H16. reflexivity.
  - intros Hnot.
    destruct ((0 <=? IP6._v_fc_flow pkt) && (IP6._v_fc_flow pkt <? 2 ^ 32)) eqn:Hw;
      [|reflexivity].
    destruct ((0 <=? IP6.plen pkt) && (IP6.plen pkt <? 2 ^ 16)) eqn:Hp;
      [|reflexivity].
    destruct ((0 <=? IP6.nxt pkt) && (IP6.nxt pkt <? 2 ^ 8)) eqn:Hn;
      [|reflexivity].
    destruct ((0 <=? IP6.hlim pkt) && (IP6.hlim pkt <? 2 ^ 8)) eqn:Hh;
      [|reflexivity].
    exfalso. apply Hnot. apply andb_true_iff in Hw, Hp, Hn, Hh. lia.
Qed.

Lemma IP6_pack_hdr_fits_or_PackError_witness :
  exists pkt : @IP6.t Segment.t,
    IP6.unpack Segment.protosw test_ipg_s = Ok pkt /\
    (exists h, IP6.pack_hdr pkt = Ok h /\ length h = 40%nat) /\
    IP6.pack_hdr (IP6.set_v 16 pkt) = Raise PackError.
Proof.
  eexists. split; [vm_compute; reflexivity|]. split.
  - apply IP6_pack_hdr_fits_or_PackError. vm_compute.
    repeat split; discriminate.
  - apply IP6_pack_hdr_fits_or_PackError. vm_compute.
    intros [[_ Hlt] _]. discriminate Hlt.
Defined.

(** Property X18.  The fields of a decoded packet: version, traffic
    class and flow label are 4-, 8- and 20-bit values that make up the
    first word; payload length, next header and hop limit fit their
    formats; both addresses are 16 bytes long. *)
Theorem IP6_unpack_fields {U : Type}
    (protosw : gmap Z (bytes -> outcome U)) (buf : bytes) (pkt : IP6.t) :
  IP6.unpack protosw buf = Ok pkt ->
  0 <= IP6.v pkt < 2 ^ 4 /\ 0 <= IP6.fc pkt < 2 ^ 8 /\
  0 <= IP6.flow pkt < 2 ^ 20 /\
  IP6._v_fc_flow pkt = IP6.v pkt * 2 ^ 28 + IP6.fc pkt * 2 ^ 20 + IP6.flow pkt /\
  0 <= IP6.plen pkt < 2 ^ 16 /\ 0 <= IP6.nxt pkt < 2 ^ 8 /\
  0 <= IP6.hlim pkt < 2 ^ 8 /\
  length (IP6.src pkt) = 16%nat /\ length (IP6.dst pkt) = 16%nat.
Proof.
  unfold IP6.unpack. intros Hu.
  apply bind_Ok in Hu as [[hdr data] [Hp Hu]].
  apply Packet_unpack_Ok in Hp as (_ & _ & _ & Hl). unfold IP6.__hdr_len__ in Hl.
  apply bind_Ok in Hu as [[[m rest] next] [_ Hu]].
  apply bind_Ok in Hu as [d [_ Hu]]. injection Hu as <-.
  unfold IP6.v, IP6.fc, IP6.flow. simpl.
  pose proof (unpack_I_range (Packet.field 0 4 hdr)) as Hw.
  set (w := struct.unpack_I (Packet.field 0 4 hdr)) in *.
  pose proof (unpack_H_range (Packet.field 4 2 hdr)).
  pose proof (unpack_B_range (Packet.field 6 1 hdr)).
  pose proof (unpack_B_range (Packet.field 7 1 hdr)).
  rewrite !field_length by lia.
  rewrite !Z.shiftr_div_pow2 by lia.
  change 0xff with (Z.ones 8). change 0xfffff with (Z.ones 20).
  rewrite !Z.land_ones by lia.
  pose proof (Z.div_mod w (2 ^ 20)) as H20.
  pose proof (Z.div_mod (w / 2 ^ 20) (2 ^ 8)) as H8.
  pose proof (Z.div_div w (2 ^ 20) (2 ^ 8)) as Hdd.
  change (2 ^ 20 * 2 ^ 8) with (2 ^ 28) in Hdd.
  pose proof (Z.mod_pos_bound w (2 ^ 20)).
  pose proof (Z.mod_pos_bound (w / 2 ^ 20) (2 ^ 8)).
  assert (0 <= w / 2 ^ 28 < 2 ^ 4)
    by (split; [apply Z.div_pos; lia | apply Z.div_lt_upper_bound; lia]).
  lia.
Qed.

Lemma IP6_unpack_fields_witness :
  exists pkt, IP6.unpack Segment.protosw test_ipg_s = Ok pkt /\
    IP6.v pkt = 6 /\
    0 <= IP6.v pkt < 2 ^ 4 /\ 0 <= IP6.fc pkt < 2 ^ 8 /\
    0 <= IP6.flow pkt < 2 ^ 20 /\
    IP6._v_fc_flow pkt = IP6.v pkt * 2 ^ 28 + IP6.fc pkt * 2 ^ 20 + IP6.flow pkt /\
    0 <= IP6.plen pkt < 2 ^ 16 /\ 0 <= IP6.nxt pkt < 2 ^ 8 /\
    0 <= IP6.hlim pkt < 2 ^ 8 /\
    length (IP6.src pkt) = 16%nat /\ length (IP6.dst pkt) = 16%nat.
Proof.
  eexists. split; [vm_compute; reflexivity|]. split; [reflexivity|].
  apply (IP6_unpack_fields Segment.protosw test_ipg_s).
  vm_compute. reflexivity.
Defined.

(** ** The checksum fix-up without extension headers *)

(** Property X19.  When the next-header field of the fixed header is
    the payload protocol itself (no extension header), the protocol is
    TCP, UDP or ICMPv6, and the payload's checksum reads zero, the fix-up
    stores in the payload the checksum over the pseudo-header (source,
    destination, a zero byte, the protocol id, the 16-bit payload length)
    followed by the payload bytes. *)
Theorem fixup_checksum_without_extension_headers {U : Type} `{Payload U}
    (pkt : IP6.t) (q : Z) (o o' : U) :
  IP6.p pkt = Some q -> IP6.nxt pkt = q ->
  q = 6 \/ q = 17 \/ q = 58 ->
  IP6.data pkt = Obj o -> pl_sum o = Some 0 ->
  length (IP6.src pkt) = 16%nat -> length (IP6.dst pkt) = 16%nat ->
  blen (pl_bytes o) < 65536 ->
  let n := blen (pl_bytes o) in
  let pseudo :=
    IP6.src pkt ++ IP6.dst pkt ++ [x00; chr q; chr (Z.shiftr n 8); chr n] in
  pl_set_sum
    (dpkt.in_cksum_done
       (dpkt.in_cksum_add (dpkt.in_cksum_add 0 pseudo) (pl_bytes o))) o = Some o' ->
  IP6.fixup pkt = Ok (IP6.set_data (Obj o') pkt).
Proof.
  intros Hp Hnxt Hq Hd Hs Hsrc Hdst Hlen n pseudo Hset.
  rewrite (fixup_writes_nxt_checksum pkt q o) by
    (assumption || (rewrite Hnxt; destruct Hq as [-> | [-> | ->]]; lia)).
  unfold spec_fixup_checksum. cbn [IP6.data_set_sum]. rewrite Hnxt.
  change (pl_set_sum _ o) with
    (pl_set_sum
       (dpkt.in_cksum_done
          (dpkt.in_cksum_add (dpkt.in_cksum_add 0 pseudo) (pl_bytes o))) o).
  by rewrite Hset.
Qed.

Lemma fixup_checksum_without_extension_headers_witness :
  exists pkt seg,
    IP6.unpack Segment.protosw test_ipg_zero_sum = Ok pkt /\
    IP6.data pkt = Obj seg /\
    IP6.fixup pkt =
      Ok (IP6.set_data
            (Obj (Segment.mk (Segment.pre seg) 0xf809 (Segment.post seg))) pkt).
Proof.
  do 2 eexists. split; [vm_compute; reflexivity|]. split; [reflexivity|].
  eapply (fixup_checksum_without_extension_headers _ 6);
    try reflexivity; try (by left).
Defined.

(** ** The protocol registry *)

(** Property X20.  [get_proto] returns the class that [set_proto]
    registered for an id, other ids are left as they were, and an id
    that was never registered raises KeyError. *)
Theorem set_proto_get_proto {U : Type} (protosw : gmap Z (bytes -> outcome U))
    (p : Z) (pktclass : bytes -> outcome U) :
  IP6.get_proto (IP6.set_proto protosw p pktclass) p = Ok pktclass /\
  (forall p', p' <> p ->
     IP6.get_proto (IP6.set_proto protosw p pktclass) p' = IP6.get_proto protosw p') /\
  (forall p', protosw !! p' = None -> IP6.get_proto protosw p' = Raise KeyError).
Proof.
  unfold IP6.get_proto, IP6.set_proto. split; [by rewrite lookup_insert_eq|].
  split.
  - intros p' Hne. by rewrite lookup_insert_ne.
  - by intros p' ->.
Qed.

Lemma set_proto_get_proto_witness :
  IP6.get_proto (IP6.set_proto Segment.protosw 132 (Segment.unpack 8 12)) 132
    = Ok (Segment.unpack 8 12) /\
  IP6.get_proto (IP6.set_proto Segment.protosw 132 (Segment.unpack 8 12)) 6
    = IP6.get_proto Segment.protosw 6 /\
  IP6.get_proto Segment.protosw 132 = Raise KeyError.
Proof.
  destruct (set_proto_get_proto Segment.protosw 132 (Segment.unpack 8 12))
    as (Hget & Hother & Hmiss).
  split; [exact Hget|]. split; [apply Hother; lia|].
  apply Hmiss. reflexivity.
Defined.

(** ** Truncated packets *)

(** Property X22.  A buffer shorter than the 40-byte fixed header makes
    decoding raise NeedData.  So does a payload region that is too short
    for the fixed portion of the extension header that the next-header
    field announces: the error of the header decoder is not caught. *)
Theorem IP6_unpack_truncated {U : Type}
    (protosw : gmap Z (bytes -> outcome U)) (buf : bytes) :
  ((length buf < 40)%nat -> IP6.unpack protosw buf = Raise NeedData) /\
  (forall n,
     (40 <= length buf)%nat ->
     let plen := struct.unpack_H (take 2 (drop 4 buf)) in
     let nxt := struct.unpack_B (take 1 (drop 6 buf)) in
     ext_hdrs_hdr_len !! nxt = Some n ->
     (length (IP6.region plen (drop 40 buf)) < n)%nat ->
     IP6.unpack protosw buf = Raise NeedData).
Proof.
  split.
  - intros Hlt. unfold IP6.unpack, IP6.__hdr_len__.
    by rewrite Packet_unpack_short.
  - intros n Hlen plen nxt Hn Hshort.
    rewrite IP6_unpack_eq by exact Hlen. cbv zeta. fold plen nxt.
    set (region := IP6.region plen (drop 40 buf)) in *.
    clearbody region nxt.
    assert (Hin : is_Some (ext_hdrs_cls !! nxt)).
    { unfold ext_hdrs_hdr_len in Hn. unfold ext_hdrs_cls.
      lookup_cases Hn; eexists; reflexivity. }
    destruct Hin as [cls Hk].
    cbn [walk]. rewrite bool_decide_eq_true_2 by (apply ext_hdrs_cls_dom; eauto).
    rewrite Hk. by rewrite (ext_short_buffer _ _ _ _ Hk Hn Hshort).
Qed.

Lemma IP6_unpack_truncated_witness :
  IP6.unpack Segment.protosw (take 39 test_ipg_s) = Raise NeedData /\
  IP6.unpack Segment.protosw (take 47 test_ip6_routing_header_s) = Raise NeedData.
Proof.
  split.
  - apply IP6_unpack_truncated. vm_compute. lia.
  - apply (proj2 (IP6_unpack_truncated Segment.protosw
                    (take 47 test_ip6_routing_header_s)) 8%nat).
    + vm_compute. lia.
    + reflexivity.
    + vm_compute. lia.
Defined.

(** ** More on accessors and on serializing *)

(** Property X23.  On a 32-bit word whose bits 20 to 23 are clear,
    setting the strict/loose bitmap to a 20-bit value reads back that
    value, leaves the reserved byte as it was, and keeps the word a
    32-bit value. *)
Theorem RoutingHeader_set_sl_bits_20 (h : IP6RoutingHeader.t) (x : Z) :
  0 <= IP6RoutingHeader.rsvd_sl_bits h < 2 ^ 32 ->
  IP6RoutingHeader.sl_bits h < 2 ^ 20 ->
  0 <= x < 2 ^ 20 ->
  IP6RoutingHeader.sl_bits (IP6RoutingHeader.set_sl_bits x h) = x /\
  Z.shiftr (IP6RoutingHeader.rsvd_sl_bits (IP6RoutingHeader.set_sl_bits x h)) 24 =
    Z.shiftr (IP6RoutingHeader.rsvd_sl_bits h) 24 /\
  0 <= IP6RoutingHeader.rsvd_sl_bits (IP6RoutingHeader.set_sl_bits x h) < 2 ^ 32.
Proof.
  unfold IP6RoutingHeader.sl_bits, IP6RoutingHeader.set_sl_bits. simpl.
  set (w := IP6RoutingHeader.rsvd_sl_bits h). intros Hw Hsl Hx.
  change 0xffffff with (Z.ones 24) in *. change 0xfffff with (Z.ones 20).
  assert (Hs : 0 <= Z.land w (Z.ones 24) < 2 ^ 20).
  { split; [|exact Hsl]. rewrite Z.land_ones by lia. apply Z.mod_pos_bound. lia. }
  assert (Hmid : forall j, 20 <= j < 24 -> Z.testbit w j = false).
  { intros j Hj. pose proof (testbit_high 20 _ j Hs ltac:(lia)) as Hb.
    rewrite Z.land_spec, Z.testbit_ones in Hb by lia.
    replace ((0 <=? j) && (j <? 24)) with true in Hb
      by (symmetry; apply andb_true_iff; lia).
    by rewrite andb_true_r in Hb. }
  clear Hs Hsl.
  split; [|split; [bits|apply (land_ones_range _ 32); [lia|]; bits]].
  apply Z.bits_inj'. intros i Hi.
  repeat first
    [ rewrite Z.land_spec | rewrite Z.lor_spec | rewrite Z.lnot_spec by lia
    | rewrite Z.testbit_ones by lia ].
  destruct (Z.ltb_spec i 20); destruct (Z.ltb_spec i 24); try lia;
    destruct (Z.leb_spec 0 i); try lia; simpl.
  - destruct (Z.testbit w i), (Z.testbit x i); reflexivity.
  - rewrite Hmid by lia. rewrite (testbit_high 20 x i) by lia. reflexivity.
  - rewrite (testbit_high 20 x i) by lia. by rewrite !andb_false_r.
Qed.

Lemma RoutingHeader_set_sl_bits_20_witness :
  exists h, IP6RoutingHeader.unpack (drop 40 test_ip6_routing_header_s) = Ok h /\
    IP6RoutingHeader.sl_bits (IP6RoutingHeader.set_sl_bits 0xbcdef h) = 0xbcdef /\
    Z.shiftr (IP6RoutingHeader.rsvd_sl_bits (IP6RoutingHeader.set_sl_bits 0xbcdef h)) 24 =
      Z.shiftr (IP6RoutingHeader.rsvd_sl_bits h) 24 /\
    0 <= IP6RoutingHeader.rsvd_sl_bits (IP6RoutingHeader.set_sl_bits 0xbcdef h) < 2 ^ 32.
Proof.
  eexists. split; [vm_compute; reflexivity|].
  apply (RoutingHeader_set_sl_bits_20 _ 0xbcdef).
  - vm_compute. split; [discriminate|reflexivity].
  - vm_compute. reflexivity.
  - vm_compute. split; [discriminate|reflexivity].
Defined.

Lemma fixup_settles {U : Type} `{Payload U} (pkt pkt' : IP6.t) :
  (forall s o o', pl_set_sum s o = Some o' -> pl_sum o' = Some s) ->
  (forall s o o', pl_sum o = Some s -> pl_set_sum s o = Some o' -> o' = o) ->
  IP6.fixup pkt = Ok pkt' -> IP6.fixup pkt' = Ok pkt'.
Proof.
  intros Hget Hsame. unfold IP6.fixup.
  destruct (IP6.p pkt) as [q|] eqn:Hp; [|discriminate].
  destruct ((q =? 6) || (q =? 17) || (q =? 58)) eqn:Hq;
    [|intros [= <-]; by rewrite Hp, Hq].
  destruct (IP6.data pkt) as [b|o] eqn:Hd; [discriminate|].
  cbn [IP6.data_sum IP6.data_bytes IP6.data_set_sum].
  destruct (pl_sum o) as [s|] eqn:Hs; [|discriminate]. cbn [bind].
  destruct (s =? 0) eqn:Hz.
  2:{ intros [= <-]. rewrite Hp, Hq, Hd. cbn [IP6.data_sum]. rewrite Hs.
      cbn [bind]. by rewrite Hz. }
  apply Z.eqb_eq in Hz. subst s.
  destruct (IP6.pseudo_header _ _ _ _) as [ps| |] eqn:Hps; [|discriminate..].
  cbn [bind].
  set (c := dpkt.in_cksum_done _).
  destruct (pl_set_sum c o) as [o'|] eqn:Hset; intros [= <-];
    cbn [IP6.set_data IP6.p IP6.data IP6.src IP6.dst IP6.nxt];
    rewrite Hp, Hq; cbn [IP6.data_sum IP6.data_bytes IP6.data_set_sum].
  - rewrite (Hget _ _ _ Hset). cbn [bind].
    destruct (c =? 0) eqn:Hc; [|reflexivity].
    apply Z.eqb_eq in Hc.
    assert (o' = o) as -> by (apply (Hsame 0 o o' Hs); by rewrite <- Hc).
    rewrite Hps. cbn [bind]. fold c. by rewrite Hset.
  - rewrite Hs. cbn [bind]. rewrite Z.eqb_refl, Hps. cbn [bind]. fold c.
    by rewrite Hset.
Qed.

(** Property X24.  Serializing settles the packet: when the payload
    reads back the checksum that was stored in it, and storing the
    checksum it already has changes nothing, serializing the packet that a
    first call left gives the same bytes and leaves the packet as it
    is. *)
Theorem to_bytes_twice {U : Type} `{Payload U} (pkt pkt' : IP6.t) (out : bytes) :
  (forall s o o', pl_set_sum s o = Some o' -> pl_sum o' = Some s) ->
  (forall s o o', pl_sum o = Some s -> pl_set_sum s o = Some o' -> o' = o) ->
  IP6.to_bytes pkt = Ok (pkt', out) ->
  IP6.to_bytes pkt' = Ok (pkt', out).
Proof.
  intros Hget Hsame. unfold IP6.to_bytes. intros Hb.
  apply bind_Ok in Hb as [p1 [Hf Hb]].
  apply bind_Ok in Hb as [h [Hh Hb]].
  apply bind_Ok in Hb as [hs [Hhs Hb]]. injection Hb as <- <-.
  rewrite (fixup_settles _ _ Hget Hsame Hf). cbn [bind].
  by rewrite Hh, Hhs.
Qed.

Lemma Segment_sum_laws :
  (forall s (o o' : Segment.t), pl_set_sum s o = Some o' -> pl_sum o' = Some s) /\
  (forall s (o o' : Segment.t),
     pl_sum o = Some s -> pl_set_sum s o = Some o' -> o' = o).
Proof.
  split.
  - intros s o o' [= <-]. reflexivity.
  - intros s [pre s0 post] o' [= <-] [= <-]. reflexivity.
Defined.

Lemma to_bytes_twice_witness :
  exists pkt pkt' : @IP6.t Segment.t,
    IP6.unpack Segment.protosw test_ipg_zero_sum = Ok pkt /\
    IP6.to_bytes pkt = Ok (pkt', test_ipg_s) /\
    IP6.to_bytes pkt' = Ok (pkt', test_ipg_s).
Proof.
  do 2 eexists. split; [vm_compute; reflexivity|].
  match goal with
  | |- ?first /\ _ => assert (Hb : first) by (vm_compute; reflexivity)
  end.
  split; [exact Hb|].
  exact (to_bytes_twice _ _ _ (proj1 Segment_sum_laws) (proj2 Segment_sum_laws) Hb).
Defined.
